(** * flexible_crawler.py: a verified model of the fetch-parse-store pipeline

  The development follows the source file top to bottom:

  - [PyStr]   the few [str] operations the crawler uses ([strip],
               truthiness, the detail-page regular expression);
  - [Soup]    the part of the BeautifulSoup tree interface the crawler
               calls ([find], [find_all], [.text]);
  - [Extractor]  lines 79-121 of [crawl_page], the per-link extraction;
  - [Store]   the [article_urls] table with [INSERT OR IGNORE];
  - section [Crawler]  [crawl_page] and the coordinator loop of [main],
               parametrised by the two library calls whose result the
               program does not control: [str.format] and [requests.get];
  - [Sample]  concrete templates, documents, networks and tables on
               which the model is evaluated.

  The pages run in worker threads, but only the coordinator loop of
  [main] touches the lock and the database, so the run is modelled as
  that loop consuming the pages' results in an arbitrary completion
  order.

  A Python [str] is modelled as a Rocq [string] whose characters are the
  code points below 256.  On that range [str.isspace] and the regular
  expression class [\d] are the finite sets written out below. *)

From Stdlib Require Import ZArith Ascii String List Permutation Sorted.
From Stdlib Require DecimalString.
From stdpp Require Import gmap strings list fin_maps.

Set Warnings "-register-all".
Local Open Scope Z_scope.

(* ===================================================================== *)
(** ** Python strings                                                     *)
(* ===================================================================== *)

Module PyStr.

(** The line feed character, [\n]. *)
Definition LF : ascii := "010"%char.

(** [bool(s)] for a string: the empty string is the only falsy one. *)
Definition truthy (s : string) : bool :=
  match s with
  | EmptyString => false
  | String _ _ => true
  end.

(** [c.isspace()] on code points below 256: TAB..CR, FS..US, SPACE,
    NEL (0x85) and NBSP (0xA0). *)
Definition isspace (c : ascii) : bool :=
  let n := N_of_ascii c in
  (((9 <=? n) && (n <=? 13)) || ((28 <=? n) && (n <=? 32))
   || (n =? 133) || (n =? 160))%N.

(** [s.lstrip()] *)
Fixpoint lstrip (s : string) : string :=
  match s with
  | EmptyString => EmptyString
  | String c s' => if isspace c then lstrip s' else s
  end.

(** [s.rstrip()] *)
Fixpoint rstrip (s : string) : string :=
  match s with
  | EmptyString => EmptyString
  | String c s' =>
      match rstrip s' with
      | EmptyString => if isspace c then EmptyString else String c EmptyString
      | r => String c r
      end
  end.

(** [s.strip()] *)
Definition strip (s : string) : string := rstrip (lstrip s).

(** The class [\d] on code points below 256. *)
Definition isdigit (c : ascii) : bool :=
  let n := N_of_ascii c in ((48 <=? n) && (n <=? 57))%N.

(** Remove a literal prefix, if it is there. *)
Fixpoint strip_prefix (p s : string) : option string :=
  match p with
  | EmptyString => Some s
  | String a p' =>
      match s with
      | EmptyString => None
      | String b s' => if Ascii.eqb a b then strip_prefix p' s' else None
      end
  end.

(** Drop the longest run of digits, counting it: the greedy [\d*]. *)
Fixpoint skip_digits (s : string) : nat * string :=
  match s with
  | EmptyString => (O, EmptyString)
  | String c s' =>
      if isdigit c then let '(n, r) := skip_digits s' in (S n, r)
      else (O, s)
  end.

Definition detail_prefix : string := "https://news.ruc.edu.cn/".
Definition detail_suffix : string := ".html".

(** [re.match(r'^https://news\.ruc\.edu\.cn/\d+\.html$', href)] as a
    boolean.  [^] anchors at the start (as [re.match] does anyway); the
    literal host, one or more digits and the literal [.html] follow.
    Without [re.MULTILINE], Python's [$] succeeds at the end of the
    string and also just before a line feed that is the last character,
    hence the two accepted remainders.  Since [.] is not a digit, the
    greedy run of digits is the only candidate for [\d+]. *)
Definition match_detail_url (href : string) : bool :=
  match strip_prefix detail_prefix href with
  | None => false
  | Some rest =>
      let '(n, tail) := skip_digits rest in
      negb (Nat.eqb n 0)
      && (String.eqb tail detail_suffix
          || String.eqb tail (detail_suffix +:+ String LF EmptyString))
  end.

(** What "fixed host, numeric identifier, [.html] suffix and nothing
    else" says, as a proposition on the address. *)
Definition all_digits (s : string) : Prop :=
  Forall (fun c => isdigit c = true) (list_ascii_of_string s).

Definition exact_detail_url (href : string) : Prop :=
  exists ident : string,
    ident <> EmptyString /\ all_digits ident /\
    href = detail_prefix +:+ ident +:+ detail_suffix.

(** The greedy run of digits stops in front of a string that is empty or
    whose first character is not a digit. *)
Definition stops_digits (r : string) : Prop :=
  match r with
  | EmptyString => True
  | String c _ => isdigit c = false
  end.

(** Whether every character of [s] is white space: when [s.strip()] is
    empty. *)
Definition all_space (s : string) : bool :=
  forallb isspace (list_ascii_of_string s).

(** Whether [s] has no space character, as every class name the parser
    splits off has none. *)
Definition space_free (s : string) : bool :=
  forallb (fun c => negb (Ascii.eqb c " ")) (list_ascii_of_string s).

(** [needle in s] for two strings: the substring test. *)
Fixpoint contains (needle s : string) : bool :=
  String.prefix needle s
  || match s with
     | EmptyString => false
     | String _ s' => contains needle s'
     end.

End PyStr.

(* ===================================================================== *)
(** ** The BeautifulSoup tree                                             *)
(* ===================================================================== *)

Module Soup.

(** A parsed document.  Of an element's attributes the crawler reads
    only [class] (which the parser stores split at white space) and
    [href]. *)
Inductive node : Type :=
| Text (s : string)
| Elem (name : string) (classes : list string) (href : option string)
       (children : list node).

Definition children (n : node) : list node :=
  match n with
  | Text _ => []
  | Elem _ _ _ cs => cs
  end.

Definition get_href (n : node) : option string :=
  match n with
  | Text _ => None
  | Elem _ _ h _ => h
  end.

(** [n.descendants]: everything below [n], in document order. *)
Fixpoint descendants (n : node) : list node :=
  match n with
  | Text _ => []
  | Elem _ _ _ cs => flat_map (fun c => c :: descendants c) cs
  end.

(** [n.text]: the strings below [n], joined in document order. *)
Fixpoint text (n : node) : string :=
  match n with
  | Text s => s
  | Elem _ _ _ cs => fold_right (fun c acc => text c +:+ acc) EmptyString cs
  end.

(** [' '.join(classes)] *)
Fixpoint join_classes (cs : list string) : string :=
  match cs with
  | [] => EmptyString
  | [c] => c
  | c :: cs' => c +:+ " " +:+ join_classes cs'
  end.

(** The [class_=wanted] filter: one of the element's classes is the
    wanted string, or the whole attribute value is. *)
Definition class_matches (wanted : string) (cs : list string) : bool :=
  existsb (String.eqb wanted) cs || String.eqb (join_classes cs) wanted.

(** The test [find(name, class_=cls)] applies to each descendant; with
    [cls = None] the call is [find(name)]. *)
Definition is_tag (tag : string) (cls : option string) (n : node) : bool :=
  match n with
  | Text _ => false
  | Elem nm cs _ _ =>
      String.eqb nm tag
      && match cls with
         | None => true
         | Some wanted => class_matches wanted cs
         end
  end.

(** [n.find(tag, class_=cls)]: the first matching descendant or [None]. *)
Definition find (tag : string) (cls : option string) (n : node)
  : option node :=
  List.find (is_tag tag cls) (descendants n).

(** [n.find_all('a', href=True)] *)
Definition is_link (n : node) : bool :=
  is_tag "a" None n && match get_href n with Some _ => true | None => false end.

Definition find_all_links (n : node) : list node :=
  List.filter is_link (descendants n).

End Soup.

(* ===================================================================== *)
(** ** The record extractor (crawl_page, lines 79-121)                    *)
(* ===================================================================== *)

Module Extractor.
Import Soup.

(** The dictionary appended to [article_items] at lines 112-116. *)
Record article : Type := Article {
  url : string;
  title : string;
  publish_time : string
}.

Definition container_class : string := "col-sm-9 col-xs-12 xs-padding".
Definition heading_class : string := "xs-padding xs-font-size".
Definition visible_time_class : string := "visible-xs".
Definition hidden_time_class : string := "pp-box-time".

(** Lines 91-94. *)
Definition link_title (link : node) : string :=
  match find "h5" (Some heading_class) link with
  | Some h5 => PyStr.strip (text h5)
  | None => EmptyString
  end.

(** Lines 104-110, entered when [publish_time] is still falsy; the
    f-string puts a full stop between the two fragments. *)
Definition hidden_time (link : node) (publish_time : string) : string :=
  match find "div" (Some hidden_time_class) link with
  | Some time_div =>
      match find "span" None time_div, find "p" None time_div with
      | Some span, Some p => text span +:+ "." +:+ text p
      | _, _ => publish_time
      end
  | None => publish_time
  end.

(** Lines 97-110. *)
Definition link_publish_time (link : node) : string :=
  let publish_time :=
    match find "p" (Some visible_time_class) link with
    | Some visible_time => PyStr.strip (text visible_time)
    | None => EmptyString
    end in
  if PyStr.truthy publish_time then publish_time
  else hidden_time link publish_time.

(** The guard of line 89. *)
Definition qualifies (link : node) : bool :=
  match get_href link with
  | Some href => PyStr.match_detail_url href
  | None => false
  end.

(** The body of the loop at lines 86-116 for one link: the record it
    appends, if any. *)
Definition extract_link (link : node) : option article :=
  match get_href link with
  | Some href =>
      if PyStr.match_detail_url href
      then Some (Article href (link_title link) (link_publish_time link))
      else None
  | None => None
  end.

(** Lines 84-118: [article_items] for a container that was found. *)
Definition extract_items (target_div : node) : list article :=
  omap extract_link (find_all_links target_div).

(** Lines 79-121: the record list of a parsed page. *)
Definition extract (soup : node) : list article :=
  match find "div" (Some container_class) soup with
  | Some target_div => extract_items target_div
  | None => []
  end.

(** The publish time as the specification words it: the visible element
    decides whenever it is present, and the two hidden fragments are
    concatenated. *)
Definition spec_publish_time (link : node) : string :=
  match find "p" (Some visible_time_class) link with
  | Some visible_time => PyStr.strip (text visible_time)
  | None =>
      match find "div" (Some hidden_time_class) link with
      | Some time_div =>
          match find "span" None time_div, find "p" None time_div with
          | Some span, Some p => text span +:+ text p
          | _, _ => EmptyString
          end
      | None => EmptyString
      end
  end.

End Extractor.

(* ===================================================================== *)
(** ** The dedup store: table [article_urls]                              *)
(* ===================================================================== *)

Module Store.
Import Extractor.

(** A stored row.  The columns [id] and [crawled_at] are filled in by the
    engine (sequence and clock) and are read nowhere in the program, so
    they are left out.  The [UNIQUE] constraint on [url] makes the table
    a finite map from URL to row, and [COUNT] its size. *)
Record row : Type := Row {
  row_title : string;
  row_publish_time : string;
  row_list_url : string
}.

(** [INSERT OR IGNORE INTO article_urls (url, title, publish_time,
    list_url) VALUES (?, ?, ?, ?)] (lines 204-207). *)
Definition insert_or_ignore (list_url : string) (t : gmap string row)
    (item : article) : gmap string row :=
  match t !! url item with
  | Some _ => t
  | None => <[url item := Row (title item) (publish_time item) list_url]> t
  end.

(** The [for item in article_urls] loop of lines 201-207.  Every item
    is a dictionary built at lines 112-116, so the [isinstance] test of
    line 203 passes and the three [item.get] find their keys. *)
Definition insert_batch (list_url : string) (items : list article)
    (t : gmap string row) : gmap string row :=
  foldl (insert_or_ignore list_url) t items.

(** [SELECT COUNT( * ) FROM article_urls] (line 227). *)
Definition count (t : gmap string row) : Z := Z.of_nat (size t).

(** Lines 152-168: [CREATE ... IF NOT EXISTS] on a database file that may
    ([Some]) or may not ([None]) hold the table already. *)
Definition ensure_schema (db : option (gmap string row)) : gmap string row :=
  match db with
  | Some t => t
  | None => ∅
  end.

(** The row an item of the page fetched from [list_url] is stored as. *)
Definition row_of (record : string * article) : row :=
  Row (title (snd record)) (publish_time (snd record)) (fst record).

(** The first record with the given URL in a sequence of records, each
    paired with the list URL of its page. *)
Definition first_with_url (u : string) (records : list (string * article))
  : option (string * article) :=
  List.find (fun record => String.eqb (url (snd record)) u) records.

End Store.

(* ===================================================================== *)
(** ** Exceptions, responses, configuration, events                       *)
(* ===================================================================== *)

(** The exceptions the modelled code can meet outside the network. *)
Inductive exn : Type := KeyError | IndexError | ValueError.

Inductive result (A : Type) : Type :=
| Ok (a : A)
| Raise (e : exn).
Arguments Ok {A} a.
Arguments Raise {A} e.

(** The members of [requests.RequestException] a GET can end in:
    [raise_for_status] turns a non-success status into [HTTPError]. *)
Inductive request_error : Type :=
| Timeout
| ConnectionError
| HTTPError (status : Z).

(** What lines 69-76 end in: a [RequestException], some other exception
    (raised while decoding or parsing), or the parsed document. *)
Inductive response : Type :=
| RequestException (e : request_error)
| OtherException
| Document (soup : Soup.node).

(** The [requests.get] of line 69, issued by the task of [page] for
    [list_url]. *)
Inductive request : Type := Get (page : Z) (list_url : string).

Definition is_request_for (page : Z) (r : request) : bool :=
  match r with
  | Get p _ => p =? page
  end.

(** An entry of [future_to_page] (lines 185-188) once its task has run:
    the page it was submitted for, the requests its task issued, and the
    value or exception [future.result()] gives. *)
Record future : Type := Future {
  future_page : Z;
  future_requests : list request;
  future_result : result (string * list Extractor.article)
}.

(** The dictionary returned by [load_config]. *)
Record config : Type := Config {
  dbPath : string;
  baseUrl : string;
  startPage : Z;
  endPage : Z;
  firstPageUrl : string;
  maxWorkers : Z
}.

(** Who talks to the database: the schema set-up of lines 152-168, the
    batch of one page (lines 198-210), or the final count (226-228). *)
Inductive owner : Type := Setup | Page (page : Z) | Report.

Inductive statement : Type :=
| CreateSequence
| CreateTable
| InsertOrIgnore (u : string)
| SelectCount.

(** The lock and connection operations of a run, in program order. *)
Inductive event : Type :=
| Acquire (page : Z)
| Connect (w : owner)
| Execute (w : owner) (s : statement)
| Commit (w : owner)
| Close (w : owner)
| Release (page : Z).

Global Instance owner_eq_dec : EqDecision owner.
Proof. solve_decision. Defined.

(** The events that execute an [INSERT OR IGNORE]. *)
Definition is_insert_event (e : event) : bool :=
  match e with
  | Execute _ (InsertOrIgnore _) => true
  | _ => false
  end.

(** A monitor for the write path: who holds [db_lock] and who has a
    connection open. *)
Record monitor : Type := Monitor {
  holder : option Z;
  connection : option owner
}.

Definition may_use (m : monitor) (w : owner) : bool :=
  match w with
  | Page p => bool_decide (holder m = Some p)
  | Setup | Report => bool_decide (holder m = None)
  end.

Definition is_insert (s : statement) : bool :=
  match s with
  | InsertOrIgnore _ => true
  | _ => false
  end.

Definition is_page (w : owner) : bool :=
  match w with
  | Page _ => true
  | _ => false
  end.

(** One step of the monitor; [None] is a violation: a second holder of
    the lock, a second open connection, an insert outside the lock, or a
    release while the connection is still open. *)
Definition monitor_step (m : monitor) (e : event) : option monitor :=
  match e with
  | Acquire p =>
      match holder m with
      | None => Some (Monitor (Some p) (connection m))
      | Some _ => None
      end
  | Release p =>
      if bool_decide (holder m = Some p) && bool_decide (connection m = None)
      then Some (Monitor None None) else None
  | Connect w =>
      if bool_decide (connection m = None) && may_use m w
      then Some (Monitor (holder m) (Some w)) else None
  | Execute w s =>
      if bool_decide (connection m = Some w) && may_use m w
         && implb (is_insert s) (is_page w)
      then Some m else None
  | Commit w =>
      if bool_decide (connection m = Some w) && may_use m w
      then Some m else None
  | Close w =>
      if bool_decide (connection m = Some w) && may_use m w
      then Some (Monitor (holder m) None) else None
  end.

Fixpoint monitor_run (m : monitor) (tr : list event) : option monitor :=
  match tr with
  | [] => Some m
  | e :: tr' =>
      match monitor_step m e with
      | Some m' => monitor_run m' tr'
      | None => None
      end
  end.

Definition idle : monitor := Monitor None None.

(** A trace is serialized when the monitor accepts it and ends idle. *)
Definition serialized (tr : list event) : Prop :=
  monitor_run idle tr = Some idle.

(** The events of one page's batch, lines 198-210. *)
Definition batch_events (page : Z) (items : list Extractor.article)
  : list event :=
  [Acquire page; Connect (Page page)]
  ++ map (fun item => Execute (Page page) (InsertOrIgnore (Extractor.url item)))
         items
  ++ [Commit (Page page); Close (Page page); Release page].

Definition setup_events : list event :=
  [Connect Setup; Execute Setup CreateSequence; Execute Setup CreateTable;
   Close Setup].

Definition report_events : list event :=
  [Connect Report; Execute Report SelectCount; Close Report].

(** [range(a, b)] *)
Definition py_range (a b : Z) : list Z :=
  map (fun i : nat => a + Z.of_nat i) (seq 0 (Z.to_nat (b - a))).

(** [as_completed]: the futures come back one at a time in an order the
    program does not choose.  A schedule is the list of choices; choice
    [k] among [n] pending futures yields the one at index [k mod n], and
    an exhausted schedule yields the first pending one. *)
Fixpoint completion_order {A : Type} (fuel : nat) (sched : list nat)
    (pending : list A) : list A :=
  match fuel with
  | O => []
  | S fuel' =>
      let i := (hd O sched mod length pending)%nat in
      match pending !! i with
      | Some x => x :: completion_order fuel' (tl sched) (delete i pending)
      | None => []
      end
  end.

Definition as_completed {A : Type} (sched : list nat) (futures : list A)
  : list A :=
  completion_order (length futures) sched futures.

(** The coordinator's variables while it consumes results: the table,
    [total_urls], and the lock and connection events so far. *)
Record run_state : Type := RunState {
  table : gmap string Store.row;
  total_urls : Z;
  trace : list event
}.

(** What the end of [main] prints (lines 222, 223 and 230). *)
Record summary : Type := Summary {
  total_pages : Z;
  extracted : Z;
  total_in_db : Z
}.

(** A whole execution of [main]: the table it leaves in the database
    file, its lock and connection events, and either the printed summary
    or the exception that ended it. *)
Record outcome : Type := Outcome {
  final_table : gmap string Store.row;
  events : list event;
  printed : result summary
}.

(* ===================================================================== *)
(** ** crawl_page and main                                                *)
(* ===================================================================== *)

Section Crawler.

(** [base_url_pattern.format(page=page)]: the formatted address, or the
    exception [str.format] raises on a template it rejects. *)
Variable str_format : string -> Z -> result string.

(** Lines 69-76 for the task of page [page] requesting [list_url]: the
    network's answer, after [raise_for_status] and the parser. *)
Variable http_get : Z -> string -> response.

(** Lines 53-56. *)
Definition resolve_list_url (page : Z) (base_url_pattern first_page_url : string)
  : result string :=
  if (page =? 1) && PyStr.truthy first_page_url
  then Ok first_page_url
  else str_format base_url_pattern page.

(** Lines 51-130.  Line 56 is outside the [try], so an exception of
    [str.format] leaves [crawl_page]; everything from line 60 on is
    caught by one of the two handlers. *)
Definition crawl_page (page : Z) (base_url_pattern first_page_url : string)
  : result (string * list Extractor.article) :=
  match resolve_list_url page base_url_pattern first_page_url with
  | Raise e => Raise e
  | Ok list_url =>
      match http_get page list_url with
      | RequestException _ => Ok (list_url, [])
      | OtherException => Ok (list_url, [])
      | Document soup => Ok (list_url, Extractor.extract soup)
      end
  end.

(** Lines 198-210 for one page: the batch under [db_lock]. *)
Definition store_page (page : Z) (list_url : string)
    (article_urls : list Extractor.article) (st : run_state) : run_state :=
  RunState (Store.insert_batch list_url article_urls (table st))
           (total_urls st)
           (trace st ++ batch_events page article_urls).

(** Lines 192-215, the body of the [as_completed] loop.  An exception
    coming out of [future.result()] is printed by the handler of line 214
    and the page is skipped. *)
Definition consume (cfg : config) (st : run_state) (page : Z) : run_state :=
  match crawl_page page (baseUrl cfg) (firstPageUrl cfg) with
  | Raise _ => st
  | Ok (list_url, article_urls) =>
      let st' :=
        match article_urls with
        | [] => st
        | _ :: _ => store_page page list_url article_urls st
        end in
      RunState (table st') (total_urls st' + Z.of_nat (length article_urls))
               (trace st')
  end.

(** Lines 186-188: the pages submitted, in submission order. *)
Definition submitted (cfg : config) : list Z :=
  py_range (startPage cfg) (endPage cfg + 1).

(** Lines 183-215 once the pool exists. *)
Definition coordinator (cfg : config) (sched : list nat)
    (t : gmap string Store.row) : run_state :=
  foldl (consume cfg) (RunState t 0 []) (as_completed sched (submitted cfg)).

(** Lines 133-230.  [ThreadPoolExecutor] raises [ValueError] for a
    [max_workers] that is not positive, after the schema was set up.  The
    calls into the storage engine are taken to succeed. *)
Definition main (cfg : config) (sched : list nat)
    (db : option (gmap string Store.row)) : outcome :=
  let t0 := Store.ensure_schema db in
  if maxWorkers cfg <=? 0
  then Outcome t0 setup_events (Raise ValueError)
  else
    let st := coordinator cfg sched t0 in
    Outcome (table st)
            (setup_events ++ trace st ++ report_events)
            (Ok (Summary (endPage cfg - startPage cfg + 1)
                         (total_urls st)
                         (Store.count (table st)))).

(** The records of one page as the coordinator sees them: none when the
    task raised. *)
Definition page_items (cfg : config) (page : Z) : list Extractor.article :=
  match crawl_page page (baseUrl cfg) (firstPageUrl cfg) with
  | Ok (_, article_urls) => article_urls
  | Raise _ => []
  end.

(** The URLs extracted from a list of pages, duplicates included. *)
Definition urls_of (cfg : config) (pages : list Z) : list string :=
  flat_map (fun page => map Extractor.url (page_items cfg page)) pages.

(** Every URL extracted over the page range, duplicates included. *)
Definition all_urls (cfg : config) : list string :=
  urls_of cfg (submitted cfg).

(** The completion count invariant as the specification words it: the
    printed total of extracted records is at least the printed count of
    stored URLs, with equality exactly when no URL appears twice across
    the page range. *)
Definition completion_count_claim (cfg : config) (sched : list nat)
    (db : option (gmap string Store.row)) : Prop :=
  forall s,
    printed (main cfg sched db) = Ok s ->
    extracted s >= total_in_db s
    /\ (extracted s = total_in_db s <-> List.NoDup (all_urls cfg)).

(** The lock and connection events of one consumed page: a whole batch,
    or nothing when the page has no records. *)
Definition page_batch (cfg : config) (page : Z) : list event :=
  match page_items cfg page with
  | [] => []
  | article_urls => batch_events page article_urls
  end.

(** Lines 51-130 with the network traffic written down: the requests
    the call issues, and what it returns or raises.  There is one
    [requests.get], at line 69, and no loop around it; when line 56
    raises, no request is made. *)
Definition crawl_page_logged (page : Z)
    (base_url_pattern first_page_url : string)
  : list request * result (string * list Extractor.article) :=
  match resolve_list_url page base_url_pattern first_page_url with
  | Raise e => ([], Raise e)
  | Ok list_url =>
      ([Get page list_url],
       match http_get page list_url with
       | RequestException _ => Ok (list_url, [])
       | OtherException => Ok (list_url, [])
       | Document soup => Ok (list_url, Extractor.extract soup)
       end)
  end.

(** Lines 187-188: the future of one submitted page. *)
Definition submit (cfg : config) (page : Z) : future :=
  let task := crawl_page_logged page (baseUrl cfg) (firstPageUrl cfg) in
  Future page (fst task) (snd task).

(** Lines 185-188: [future_to_page], one future per page of the range,
    in submission order. *)
Definition submit_all (cfg : config) : list future :=
  map (submit cfg) (submitted cfg).

(** The requests of all tasks of a run, task by task. *)
Definition requests_issued (cfg : config) : list request :=
  flat_map future_requests (submit_all cfg).

(** Lines 192-215 on a future handed over by [as_completed]: the loop
    body reads the page from [future_to_page] and the records from
    [future.result()]; it starts no task and issues no request. *)
Definition consume_future (st : run_state) (fut : future) : run_state :=
  match future_result fut with
  | Raise _ => st
  | Ok (list_url, article_urls) =>
      let st' :=
        match article_urls with
        | [] => st
        | _ :: _ => store_page (future_page fut) list_url article_urls st
        end in
      RunState (table st') (total_urls st' + Z.of_nat (length article_urls))
               (trace st')
  end.

(** The records of one page, each with the list URL it is stored under. *)
Definition page_records (cfg : config) (page : Z)
  : list (string * Extractor.article) :=
  match crawl_page page (baseUrl cfg) (firstPageUrl cfg) with
  | Ok (list_url, article_urls) => map (pair list_url) article_urls
  | Raise _ => []
  end.

(** The records of a list of pages in the order the inserts are issued
    when the pages are consumed in that order. *)
Definition records_in_order (cfg : config) (pages : list Z)
  : list (string * Extractor.article) :=
  flat_map (page_records cfg) pages.

End Crawler.

(* ===================================================================== *)
(** ** load_config (lines 15-48)                                          *)
(* ===================================================================== *)

Module Loader.

(** The values a YAML document is made of, as far as the loader carries
    them: it never looks inside one. *)
Inductive value : Type :=
| VNone
| VBool (b : bool)
| VInt (z : Z)
| VStr (s : string)
| VSeq (items : list value).

(** What [yaml.safe_load] returns: a mapping, of which the entries under
    string keys are kept, or any other value. *)
Inductive document : Type :=
| DMap (d : gmap string value)
| DValue (v : value).

(** What lines 26-27 end in: [open] fails with [FileNotFoundError] or
    with another exception, the parser raises [yaml.YAMLError], or the
    document is there. *)
Inductive file : Type :=
| NoSuchFile
| Unreadable
| Malformed
| Parsed (doc : document).

(** The exceptions [load_config] re-raises; [MissingKey] is the
    [ValueError] of line 33. *)
Inductive error : Type :=
| FileNotFoundError
| ReadError
| YAMLError
| MissingKey (key : string)
| TypeError
| AttributeError.

(** The diagnostics printed by the handlers of lines 41, 44 and 47. *)
Inductive message : Type :=
| NotFoundMessage
| ParseMessage
| LoadMessage.

Inductive loaded : Type :=
| Loaded (cfg : gmap string value)
| Failed (e : error).

Definition required_keys : list string :=
  ["dbPath"; "baseUrl"; "startPage"; "endPage"].

(** [key in config] (line 32): membership in a mapping, equality with an
    element of a sequence, the substring test on a string; [None] is the
    [TypeError] of a value that is not a container. *)
Definition has_key (doc : document) (key : string) : option bool :=
  match doc with
  | DMap d => Some (bool_decide (is_Some (d !! key)))
  | DValue (VStr s) => Some (PyStr.contains key s)
  | DValue (VSeq items) =>
      Some (existsb (fun v => match v with
                              | VStr s => String.eqb s key
                              | _ => false
                              end) items)
  | DValue _ => None
  end.

(** The loop of lines 31-33: the exception it raises, if any. *)
Fixpoint check_required (doc : document) (keys : list string)
  : option error :=
  match keys with
  | [] => None
  | key :: rest =>
      match has_key doc key with
      | None => Some TypeError
      | Some false => Some (MissingKey key)
      | Some true => check_required doc rest
      end
  end.

(** [d.setdefault(key, v)] *)
Definition setdefault (key : string) (v : value) (d : gmap string value)
  : gmap string value :=
  match d !! key with
  | Some _ => d
  | None => <[key := v]> d
  end.

(** Lines 36-37. *)
Definition with_defaults (d : gmap string value) : gmap string value :=
  setdefault "maxWorkers" (VInt 10) (setdefault "firstPageUrl" (VStr "") d).

(** Lines 29-39.  Only a mapping has [setdefault]. *)
Definition validate (doc : document) : loaded :=
  match check_required doc required_keys with
  | Some e => Failed e
  | None =>
      match doc with
      | DMap d => Loaded (with_defaults d)
      | DValue _ => Failed AttributeError
      end
  end.

(** Lines 25-48, with the file system as [read]: what is printed and
    what is returned or re-raised. *)
Definition load_config (read : string -> file) (config_path : string)
  : list message * loaded :=
  match read config_path with
  | NoSuchFile => ([NotFoundMessage], Failed FileNotFoundError)
  | Unreadable => ([LoadMessage], Failed ReadError)
  | Malformed => ([ParseMessage], Failed YAMLError)
  | Parsed doc =>
      match validate doc with
      | Failed e => ([LoadMessage], Failed e)
      | Loaded cfg => ([], Loaded cfg)
      end
  end.

(** The keys lines 144-149 of [main] read. *)
Definition main_keys : list string :=
  ["dbPath"; "startPage"; "endPage"; "maxWorkers"; "baseUrl"; "firstPageUrl"].

End Loader.

(* ===================================================================== *)
(** ** Concrete inputs                                                    *)
(* ===================================================================== *)

Module Sample.
Import Soup Extractor.

(** [str(page)] *)
Definition decimal (page : Z) : string :=
  DecimalString.NilZero.string_of_int (Z.to_int page).

Inductive format_state : Type :=
| Literal
| AfterOpen
| InField (name : string)
| AfterClose.

Definition result_map {A B : Type} (f : A -> B) (r : result A) : result B :=
  match r with
  | Ok a => Ok (f a)
  | Raise e => Raise e
  end.

(** [template.format(page=page)] for templates whose replacement fields
    are plain names: doubled braces are literal braces, [{page}] is the
    page number in decimal, [{}] and a numbered field are a missing
    positional argument, any other name a missing keyword, a lone brace a
    syntax error.  Fields with a conversion, a format specification, an
    attribute or an index are not covered by this instance: it takes the
    whole field as a name.  It serves the examples only; the theorems
    hold for every [str_format]. *)
Fixpoint format_from (page : Z) (st : format_state) (template : string)
  : result string :=
  match template with
  | EmptyString =>
      match st with
      | Literal => Ok EmptyString
      | _ => Raise ValueError
      end
  | String c rest =>
      match st with
      | Literal =>
          if Ascii.eqb c "{" then format_from page AfterOpen rest
          else if Ascii.eqb c "}" then format_from page AfterClose rest
          else result_map (String c) (format_from page Literal rest)
      | AfterOpen =>
          if Ascii.eqb c "{"
          then result_map (String c) (format_from page Literal rest)
          else if Ascii.eqb c "}" then Raise IndexError
          else format_from page (InField (String c EmptyString)) rest
      | InField name =>
          if Ascii.eqb c "}"
          then if String.eqb name "page"
               then result_map (String.append (decimal page))
                               (format_from page Literal rest)
               else if forallb PyStr.isdigit (list_ascii_of_string name)
                    then Raise IndexError
                    else Raise KeyError
          else format_from page (InField (name +:+ String c EmptyString)) rest
      | AfterClose =>
          if Ascii.eqb c "}"
          then result_map (String c) (format_from page Literal rest)
          else Raise ValueError
      end
  end.

Definition simple_format (template : string) (page : Z) : result string :=
  format_from page Literal template.

Definition heading (s : string) : node :=
  Elem "h5" ["xs-padding"; "xs-font-size"] None [Text s].

Definition visible_time (s : string) : node :=
  Elem "p" ["visible-xs"] None [Text s].

Definition hidden_time_box (month day : string) : node :=
  Elem "div" ["pp-box-time"] None
    [Elem "span" [] None [Text month]; Elem "p" [] None [Text day]].

Definition anchor (href : string) (inner : list node) : node :=
  Elem "a" [] (Some href) inner.

Definition container (links : list node) : node :=
  Elem "div" ["col-sm-9"; "col-xs-12"; "xs-padding"] None links.

(** A whole listing page under the parser's root object. *)
Definition listing (links : list node) : node :=
  Elem "[document]" [] None
    [Elem "html" [] None
       [Elem "body" [] None
          [Elem "div" ["row"] None
             [Elem "div" ["col-sm-3"] None [Text "menu"];
              container links]]]].

(** A link with heading and visible time. *)
Definition link_full : node :=
  anchor "https://news.ruc.edu.cn/101.html"
    [heading "  Title A "; visible_time " 2024-01-15 "].

(** A qualifying link with no heading and only the hidden time box. *)
Definition link_bare : node :=
  anchor "https://news.ruc.edu.cn/102.html" [hidden_time_box "2024.01" "16"].

(** A link to another host. *)
Definition link_foreign : node :=
  anchor "https://example.org/7.html" [heading "Elsewhere"].

(** A link whose address ends in a line feed after [.html]. *)
Definition href_trailing_lf : string :=
  "https://news.ruc.edu.cn/103.html" +:+ String PyStr.LF EmptyString.

Definition link_trailing_lf : node :=
  anchor href_trailing_lf [heading "Title C"].

(** A link whose visible time element is there but blank, next to a
    filled hidden time box. *)
Definition link_blank_visible : node :=
  anchor "https://news.ruc.edu.cn/104.html"
    [visible_time "   "; hidden_time_box "2024.02" "03"].

(** The container's classes in another order. *)
Definition reordered_container : node :=
  Elem "div" ["xs-padding"; "col-sm-9"; "col-xs-12"] None [link_full].

Definition page_one : node := listing [link_full; link_foreign; link_bare].
Definition page_two : node := listing [link_foreign].
Definition page_dup : node := listing [link_full].

Definition cfg_1_3 : config :=
  Config "articles.duckdb" "https://news.ruc.edu.cn/list_{page}.html" 1 3
         "https://news.ruc.edu.cn/index.html" 2.

(** Page 1 has two qualifying links, page 2 none, page 3 times out. *)
Definition net_1_3 (page : Z) (list_url : string) : response :=
  if page =? 1 then Document page_one
  else if page =? 2 then Document page_two
  else RequestException Timeout.

(** A network on which every request times out. *)
Definition net_down (page : Z) (list_url : string) : response :=
  RequestException Timeout.

(** A network that answers every page with the same single link. *)
Definition net_dup (page : Z) (list_url : string) : response :=
  Document page_dup.

(** A store that already holds one of page 1's addresses. *)
Definition table_one : gmap string Store.row :=
  {[ "https://news.ruc.edu.cn/101.html" :=
       Store.Row "Old title" "2023-12-31" "https://news.ruc.edu.cn/old.html" ]}.

End Sample.

(** Configuration files for the loader. *)
Module SampleConfig.
Import Loader.

Definition complete : gmap string value :=
  list_to_map
    [("dbPath", VStr "articles.duckdb");
     ("baseUrl", VStr "https://news.ruc.edu.cn/list_{page}.html");
     ("startPage", VInt 1); ("endPage", VInt 3)].

(** A mapping that sets [firstPageUrl] to nothing and lacks [endPage]. *)
Definition partial : gmap string value :=
  list_to_map
    [("dbPath", VStr "articles.duckdb"); ("baseUrl", VStr "list_{page}.html");
     ("startPage", VInt 1); ("firstPageUrl", VNone)].

(** A document that is one plain string naming the four required keys. *)
Definition words : document :=
  DValue (VStr "dbPath baseUrl startPage endPage").

Definition disk (path : string) : file :=
  if String.eqb path "config.yaml" then Parsed (DMap complete)
  else if String.eqb path "partial.yaml" then Parsed (DMap partial)
  else if String.eqb path "words.yaml" then Parsed words
  else if String.eqb path "empty.yaml" then Parsed (DValue VNone)
  else if String.eqb path "broken.yaml" then Malformed
  else NoSuchFile.

End SampleConfig.

(* ===================================================================== *)
(** ** Facts about the string operations                                  *)
(* ===================================================================== *)

Lemma append_cons (c : ascii) (s t : string) :
  String c s +:+ t = String c (s +:+ t).
Proof. reflexivity. Qed.

Lemma append_nil_l (t : string) : EmptyString +:+ t = t.
Proof. reflexivity. Qed.


Lemma strip_prefix_app (p s : string) :
  PyStr.strip_prefix p (p +:+ s) = Some s.
Proof.
  induction p as [|a p IH]; [reflexivity|].
  rewrite append_cons. simpl. now rewrite Ascii.eqb_refl.
Qed.


Lemma skip_digits_app (d r : string) :
  PyStr.all_digits d -> PyStr.stops_digits r ->
  PyStr.skip_digits (d +:+ r) = (String.length d, r).
Proof.
  unfold PyStr.all_digits.
  induction d as [|c d IH]; intros Hd Hr.
  - rewrite append_nil_l. destruct r as [|c r]; [reflexivity|].
    simpl in *. now rewrite Hr.
  - rewrite append_cons. simpl in *. inversion Hd as [|? ? Hc Hd']; subst.
    rewrite Hc, (IH Hd' Hr). reflexivity.
Qed.



(* ===================================================================== *)
(** ** Facts about submission and completion order                        *)
(* ===================================================================== *)

Lemma in_py_range (a b x : Z) : In x (py_range a b) <-> a <= x < b.
Proof.
  unfold py_range. rewrite in_map_iff. split.
  - intros (i & <- & Hi). apply in_seq in Hi. lia.
  - intros H. exists (Z.to_nat (x - a)). split; [lia|].
    apply in_seq. lia.
Qed.

Lemma length_py_range (a b : Z) : length (py_range a b) = Z.to_nat (b - a).
Proof. unfold py_range. now rewrite length_map, length_seq. Qed.

Lemma py_range_from_sorted (a : Z) (k n : nat) :
  StronglySorted Z.lt (map (fun i : nat => a + Z.of_nat i) (seq k n)).
Proof.
  revert k. induction n as [|n IH]; intros k; simpl; constructor.
  - apply IH.
  - apply List.Forall_forall. intros x Hx.
    apply in_map_iff in Hx as (i & <- & Hi). apply in_seq in Hi. lia.
Qed.

Lemma py_range_sorted (a b : Z) : StronglySorted Z.lt (py_range a b).
Proof. apply py_range_from_sorted. Qed.

Lemma sorted_lt_NoDup (l : list Z) : StronglySorted Z.lt l -> List.NoDup l.
Proof.
  induction 1 as [|x l Hs IH Hall]; constructor; auto.
  intros Hin. rewrite List.Forall_forall in Hall. specialize (Hall x Hin). lia.
Qed.

Lemma py_range_NoDup (a b : Z) : List.NoDup (py_range a b).
Proof. apply sorted_lt_NoDup, py_range_sorted. Qed.

Lemma completion_order_perm {A : Type} (fuel : nat) :
  forall (sched : list nat) (pending : list A),
    length pending = fuel ->
    Permutation (completion_order fuel sched pending) pending.
Proof.
  induction fuel as [|fuel IH]; intros sched pending Hlen.
  - destruct pending; [constructor|discriminate].
  - simpl.
    assert (Hi : (hd O sched mod length pending < length pending)%nat)
      by (apply Nat.mod_upper_bound; lia).
    destruct (lookup_lt_is_Some_2 _ _ Hi) as [x Hx]. rewrite Hx.
    etransitivity; [|symmetry; apply (delete_Permutation pending _ x Hx)].
    constructor. apply IH. rewrite length_delete by eauto. lia.
Qed.

(** [as_completed] hands every future back exactly once. *)
Lemma as_completed_perm {A : Type} (sched : list nat) (futures : list A) :
  Permutation (as_completed sched futures) futures.
Proof. now apply completion_order_perm. Qed.

(** Every order of the futures is the completion order of some
    schedule: the schedules cover all the orders [as_completed] may
    produce. *)
Lemma as_completed_complete {A : Type} (order : list A) :
  forall futures : list A,
    Permutation order futures ->
    exists sched, as_completed sched futures = order.
Proof.
  unfold as_completed. intros futures.
  generalize (eq_refl (length futures)).
  generalize (length futures) at 2 3 as fuel.
  revert futures.
  induction order as [|x order IH]; intros futures fuel Hlen Hperm.
  - apply Permutation_nil in Hperm. subst. now exists [].
  - assert (Hx : x ∈ futures)
      by (apply list_elem_of_In; eapply Permutation_in; [exact Hperm|now left]).
    apply list_elem_of_lookup in Hx as [i Hi].
    pose proof (lookup_lt_Some _ _ _ Hi) as Hlt.
    assert (Hrest : Permutation order (delete i futures)).
    { apply (Permutation_cons_inv (a := x)).
      etransitivity; [exact Hperm|]. now apply delete_Permutation. }
    destruct fuel as [|fuel]; [lia|].
    destruct (IH (delete i futures) fuel) as [sched Hs]; [|exact Hrest|].
    { rewrite length_delete by eauto. lia. }
    exists (i :: sched). simpl.
    rewrite Nat.mod_small by lia. rewrite Hi. now rewrite Hs.
Qed.

(* ===================================================================== *)
(** ** Facts about the store                                              *)
(* ===================================================================== *)

Lemma insert_or_ignore_present (list_url : string)
    (t : gmap string Store.row) (item : Extractor.article) :
  is_Some (t !! Extractor.url item) ->
  Store.insert_or_ignore list_url t item = t.
Proof. intros [r Hr]. unfold Store.insert_or_ignore. now rewrite Hr. Qed.

Lemma insert_or_ignore_keeps (list_url : string)
    (t : gmap string Store.row) (item : Extractor.article)
    (u : string) (r : Store.row) :
  t !! u = Some r -> Store.insert_or_ignore list_url t item !! u = Some r.
Proof.
  intros Hu. unfold Store.insert_or_ignore.
  destruct (t !! Extractor.url item) eqn:E; [done|].
  rewrite lookup_insert_ne; [done|]. intros Heq. rewrite Heq in E. congruence.
Qed.

Lemma insert_or_ignore_dom (list_url : string)
    (t : gmap string Store.row) (item : Extractor.article) (u : string) :
  is_Some (Store.insert_or_ignore list_url t item !! u) <->
  is_Some (t !! u) \/ u = Extractor.url item.
Proof.
  unfold Store.insert_or_ignore.
  destruct (t !! Extractor.url item) eqn:E.
  - split; [auto|]. intros [H| ->]; [done|]. rewrite E. eauto.
  - rewrite lookup_insert_is_Some. split.
    + intros [->|[_ H]]; auto.
    + intros [H| ->]; [|auto].
      destruct (decide (Extractor.url item = u)); auto.
Qed.

Lemma insert_batch_cons (list_url : string) (item : Extractor.article)
    (items : list Extractor.article) (t : gmap string Store.row) :
  Store.insert_batch list_url (item :: items) t =
  Store.insert_batch list_url items (Store.insert_or_ignore list_url t item).
Proof. reflexivity. Qed.

Lemma insert_batch_keeps (list_url : string)
    (items : list Extractor.article) :
  forall (t : gmap string Store.row) (u : string) (r : Store.row),
    t !! u = Some r -> Store.insert_batch list_url items t !! u = Some r.
Proof.
  induction items as [|item items IH]; intros t u r Hu; [done|].
  rewrite insert_batch_cons. apply IH. now apply insert_or_ignore_keeps.
Qed.

Lemma insert_batch_dom (list_url : string)
    (items : list Extractor.article) :
  forall (t : gmap string Store.row) (u : string),
    is_Some (Store.insert_batch list_url items t !! u) <->
    is_Some (t !! u) \/ In u (map Extractor.url items).
Proof.
  induction items as [|item items IH]; intros t u.
  - simpl. tauto.
  - rewrite insert_batch_cons, IH, insert_or_ignore_dom. simpl.
    intuition congruence.
Qed.

Lemma insert_batch_present (list_url : string)
    (items : list Extractor.article) :
  forall t : gmap string Store.row,
    (forall u, In u (map Extractor.url items) -> is_Some (t !! u)) ->
    Store.insert_batch list_url items t = t.
Proof.
  induction items as [|item items IH]; intros t H; [done|].
  rewrite insert_batch_cons.
  rewrite insert_or_ignore_present by (apply H; now left).
  apply IH. intros u Hu. apply H. now right.
Qed.

(** The size of the table after a batch: every item adds at most one row,
    and each adds exactly one when the batch has no repeated URL and none
    of its URLs was in the table. *)
Lemma insert_batch_size (list_url : string)
    (items : list Extractor.article) :
  forall t : gmap string Store.row,
    (size (Store.insert_batch list_url items t) <= size t + length items)%nat
    /\ (size (Store.insert_batch list_url items t)
          = (size t + length items)%nat
        <-> List.NoDup (map Extractor.url items)
            /\ forall u, In u (map Extractor.url items) -> t !! u = None).
Proof.
  induction items as [|item items IH]; intros t.
  - simpl. split; [lia|]. split; [|lia].
    intros _. split; [constructor|tauto].
  - rewrite insert_batch_cons.
    destruct (IH (Store.insert_or_ignore list_url t item)) as [Hle Heq].
    unfold Store.insert_or_ignore in *.
    destruct (t !! Extractor.url item) eqn:E.
    + split; [simpl; lia|]. split.
      * intros H. simpl in H. lia.
      * intros [_ H]. rewrite H in E; [done|now left].
    + rewrite map_size_insert_None in * by done.
      split; [simpl; lia|].
      simpl length. simpl map. rewrite List.NoDup_cons_iff.
      replace (size t + S (length items))%nat
        with (S (size t) + length items)%nat by lia.
      rewrite Heq. split.
      * intros [Hnd Hfresh]. split; [split; [|done]|].
        -- intros Hin. specialize (Hfresh _ Hin).
           now rewrite lookup_insert_eq in Hfresh.
        -- intros u [<-|Hu]; [done|].
           specialize (Hfresh _ Hu).
           apply lookup_insert_None in Hfresh. tauto.
      * intros [[Hnotin Hnd] Hfresh]. split; [done|].
        intros u Hu. apply lookup_insert_None. split.
        -- apply Hfresh. now right.
        -- intros <-. done.
Qed.

(* ===================================================================== *)
(** ** Facts about the coordinator loop                                   *)
(* ===================================================================== *)

Section CoordinatorFacts.

Variable str_format : string -> Z -> result string.
Variable http_get : Z -> string -> response.
Variable cfg : config.

Local Abbreviation crawl := (crawl_page str_format http_get).
Local Abbreviation step := (consume str_format http_get cfg).
Local Abbreviation items_of := (page_items str_format http_get cfg).
Local Abbreviation urls := (urls_of str_format http_get cfg).
Local Abbreviation batch := (page_batch str_format http_get cfg).

Lemma consume_total (st : run_state) (page : Z) :
  total_urls (step st page)
  = total_urls st + Z.of_nat (length (items_of page)).
Proof.
  unfold consume, page_items.
  destruct (crawl page _ _) as [[lu [|item items]]|e]; simpl; lia.
Qed.

Lemma consume_trace (st : run_state) (page : Z) :
  trace (step st page) = trace st ++ batch page.
Proof.
  unfold consume, page_batch, page_items.
  destruct (crawl page _ _) as [[lu [|item items]]|e]; simpl;
    now rewrite ?app_nil_r.
Qed.

(** The table after one page: some batch of the page's items went in. *)
Lemma consume_table (st : run_state) (page : Z) :
  exists list_url,
    table (step st page)
    = Store.insert_batch list_url (items_of page) (table st).
Proof.
  unfold consume, page_items.
  destruct (crawl page _ _) as [[lu [|item items]]|e]; simpl.
  - now exists lu.
  - now exists lu.
  - now exists EmptyString.
Qed.

Lemma run_total (pages : list Z) :
  forall st,
    total_urls (foldl step st pages)
    = total_urls st + Z.of_nat (length (urls pages)).
Proof.
  induction pages as [|page pages IH]; intros st; simpl.
  - lia.
  - rewrite IH, consume_total, length_app, length_map. lia.
Qed.

Lemma run_trace (pages : list Z) :
  forall st,
    trace (foldl step st pages) = trace st ++ flat_map batch pages.
Proof.
  induction pages as [|page pages IH]; intros st; simpl.
  - now rewrite app_nil_r.
  - now rewrite IH, consume_trace, app_assoc.
Qed.

Lemma run_keeps (pages : list Z) :
  forall st (u : string) (r : Store.row),
    table st !! u = Some r -> table (foldl step st pages) !! u = Some r.
Proof.
  induction pages as [|page pages IH]; intros st u r Hu; simpl; [done|].
  apply IH. destruct (consume_table st page) as [lu ->].
  now apply insert_batch_keeps.
Qed.

Lemma run_dom (pages : list Z) :
  forall st (u : string),
    is_Some (table (foldl step st pages) !! u) <->
    is_Some (table st !! u) \/ In u (urls pages).
Proof.
  induction pages as [|page pages IH]; intros st u; simpl.
  - tauto.
  - rewrite IH. destruct (consume_table st page) as [lu ->].
    rewrite insert_batch_dom, in_app_iff. tauto.
Qed.

Lemma run_present (pages : list Z) :
  forall st,
    (forall u, In u (urls pages) -> is_Some (table st !! u)) ->
    table (foldl step st pages) = table st.
Proof.
  induction pages as [|page pages IH]; intros st H; simpl; [done|].
  assert (Hpage : table (step st page) = table st).
  { destruct (consume_table st page) as [lu ->].
    apply insert_batch_present. intros u Hu. apply H. simpl.
    apply in_app_iff. now left. }
  rewrite IH; [done|]. intros u Hu. rewrite Hpage. apply H. simpl.
  apply in_app_iff. now right.
Qed.

Lemma run_size (pages : list Z) :
  forall st,
    (size (table (foldl step st pages))
       <= size (table st) + length (urls pages))%nat
    /\ (size (table (foldl step st pages))
          = (size (table st) + length (urls pages))%nat
        <-> List.NoDup (urls pages)
            /\ forall u, In u (urls pages) -> table st !! u = None).
Proof.
  induction pages as [|page pages IH]; intros st.
  - simpl. split; [lia|]. split; [|lia].
    intros _. split; [constructor|tauto].
  - simpl foldl. destruct (IH (step st page)) as [Hle Heq].
    pose proof (fun u => run_dom [page] st u) as Hdom.
    simpl in Hdom.
    destruct (consume_table st page) as [lu Ht]. rewrite Ht in *.
    destruct (insert_batch_size lu (items_of page) (table st))
      as [Hle1 Heq1].
    change (urls (page :: pages))
      with (map Extractor.url (items_of page) ++ urls pages).
    rewrite length_app, length_map. split; [lia|].
    transitivity
      (size (Store.insert_batch lu (items_of page) (table st))
         = (size (table st) + length (items_of page))%nat
       /\ size (table (foldl step (step st page) pages))
          = (size (Store.insert_batch lu (items_of page) (table st))
             + length (urls pages))%nat); [lia|].
    rewrite Heq1, Heq, <- !NoDup_ListNoDup, NoDup_app.
    clear Heq Heq1 Hle Hle1 IH.
    setoid_rewrite list_elem_of_In.
    split.
    + intros [[Hnd1 Hf1] [Hnd2 Hf2]]. split; [split; [done|split; [|done]]|].
      * intros u Hu1 Hu2. specialize (Hf2 u Hu2).
        apply eq_None_not_Some in Hf2. apply Hf2, Hdom.
        right. rewrite app_nil_r. done.
      * intros u Hu. apply in_app_iff in Hu as [Hu|Hu]; [auto|].
        specialize (Hf2 u Hu). apply eq_None_not_Some.
        intros Hs. apply eq_None_not_Some in Hf2. apply Hf2, Hdom. now left.
    + intros [(Hnd1 & Hdisj & Hnd2) Hf]. split; [split; [done|]|split; [done|]].
      * intros u Hu. apply Hf, in_app_iff. now left.
      * intros u Hu. apply eq_None_not_Some. intros Hs.
        apply Hdom in Hs as [Hs|Hs].
        -- rewrite (Hf u) in Hs; [by destruct Hs|]. apply in_app_iff. now right.
        -- rewrite app_nil_r in Hs. exact (Hdisj u Hs Hu).
Qed.

Lemma urls_of_perm (pages pages' : list Z) :
  Permutation pages pages' -> Permutation (urls pages) (urls pages').
Proof.
  induction 1 as [|page l l' _ IH|p q l|l l' l'' _ IH1 _ IH2]; simpl.
  - constructor.
  - now apply Permutation_app_head.
  - rewrite !app_assoc. apply Permutation_app_tail, Permutation_app_comm.
  - now transitivity (urls l').
Qed.

End CoordinatorFacts.

(* ===================================================================== *)
(** ** Facts about the extractor                                          *)
(* ===================================================================== *)

(** The pattern gate of line 89: a record is in the result exactly when
    it was built from a link of the container whose address passes the
    guard. *)
Lemma extract_items_gate (target_div : Soup.node) (r : Extractor.article) :
  In r (Extractor.extract_items target_div) <->
  exists link href,
    In link (Soup.find_all_links target_div) /\
    Soup.get_href link = Some href /\
    PyStr.match_detail_url href = true /\
    r = Extractor.Article href (Extractor.link_title link)
                          (Extractor.link_publish_time link).
Proof.
  unfold Extractor.extract_items.
  rewrite <- list_elem_of_In, list_elem_of_omap.
  setoid_rewrite list_elem_of_In. unfold Extractor.extract_link. split.
  - intros (link & Hin & Hl).
    destruct (Soup.get_href link) as [href|] eqn:Hh; [|discriminate].
    destruct (PyStr.match_detail_url href) eqn:Hm; [|discriminate].
    inversion Hl; subst. now exists link, href.
  - intros (link & href & Hin & Hh & Hm & ->).
    exists link. now rewrite Hh, Hm.
Qed.

Lemma extract_link_qualifies (link : Soup.node) :
  is_Some (Extractor.extract_link link) <-> Extractor.qualifies link = true.
Proof.
  unfold Extractor.extract_link, Extractor.qualifies.
  destruct (Soup.get_href link) as [href|].
  - destruct (PyStr.match_detail_url href); split; intros H;
      try done; eauto; by destruct H.
  - split; intros H; [by destruct H|done].
Qed.

(** No qualifying link, no record. *)
Lemma extract_items_none (target_div : Soup.node) :
  (forall link, In link (Soup.find_all_links target_div) ->
                Extractor.qualifies link = false) ->
  Extractor.extract_items target_div = [].
Proof.
  intros H. destruct (Extractor.extract_items target_div) as [|r rs] eqn:E;
    [done|].
  assert (Hin : In r (Extractor.extract_items target_div))
    by (rewrite E; now left).
  apply extract_items_gate in Hin as (link & href & Hin & Hh & Hm & _).
  specialize (H link Hin). unfold Extractor.qualifies in H.
  rewrite Hh in H. congruence.
Qed.

(* ===================================================================== *)
(** ** Facts about the write-path monitor                                 *)
(* ===================================================================== *)

Lemma monitor_run_app (m : monitor) (tr1 tr2 : list event) :
  monitor_run m (tr1 ++ tr2)
  = match monitor_run m tr1 with
    | Some m' => monitor_run m' tr2
    | None => None
    end.
Proof.
  revert m. induction tr1 as [|e tr1 IH]; intros m; simpl; [done|].
  destruct (monitor_step m e); [apply IH|done].
Qed.

(** The monitor's tests on a state that names its holder and connection
    are decided by reflexivity of the names. *)
Ltac monitor_ok := rewrite !bool_decide_eq_true_2 by done; simpl.

Lemma monitor_run_inserts (page : Z) (items : list Extractor.article)
    (tail : list event) :
  let m := Monitor (Some page) (Some (Page page)) in
  monitor_run m
    (map (fun item => Execute (Page page)
                              (InsertOrIgnore (Extractor.url item))) items
     ++ tail)
  = monitor_run m tail.
Proof.
  induction items as [|item items IH]; simpl; [done|].
  unfold monitor_step. simpl. monitor_ok. apply IH.
Qed.

(** One page's batch is accepted from the idle state and ends idle. *)
Lemma batch_events_serialized (page : Z) (items : list Extractor.article) :
  serialized (batch_events page items).
Proof.
  unfold serialized, batch_events. simpl. monitor_ok.
  rewrite monitor_run_inserts. simpl.
  do 3 monitor_ok. reflexivity.
Qed.

Lemma serialized_app (tr1 tr2 : list event) :
  serialized tr1 -> serialized tr2 -> serialized (tr1 ++ tr2).
Proof.
  unfold serialized. intros H1 H2. now rewrite monitor_run_app, H1.
Qed.

Lemma serialized_nil : serialized [].
Proof. reflexivity. Qed.

Lemma serialized_flat_map {A : Type} (f : A -> list event) (l : list A) :
  (forall x, serialized (f x)) -> serialized (flat_map f l).
Proof.
  intros H. induction l as [|x l IH]; simpl.
  - apply serialized_nil.
  - now apply serialized_app.
Qed.

(** The monitor is not vacuous: a second page entering the write path
    while the first is inside is a violation, and so is an insert issued
    without the lock. *)
Example monitor_rejects_interleaving :
  monitor_run idle
    [Acquire 1; Connect (Page 1); Acquire 2; Connect (Page 2)] = None
  /\ monitor_run idle
       [Connect (Page 1); Execute (Page 1) (InsertOrIgnore "u")] = None
  /\ monitor_run idle
       [Acquire 1; Connect (Page 1); Release 1; Close (Page 1)] = None.
Proof. repeat split; reflexivity. Qed.

(* ===================================================================== *)
(** ** The properties of the specification                                *)
(* ===================================================================== *)

Section Properties.

Variable str_format : string -> Z -> result string.
Variable http_get : Z -> string -> response.

Lemma main_completes (cfg : config) (sched : list nat)
    (db : option (gmap string Store.row)) :
  0 < maxWorkers cfg ->
  let st := coordinator str_format http_get cfg sched (Store.ensure_schema db) in
  main str_format http_get cfg sched db
  = Outcome (table st) (setup_events ++ trace st ++ report_events)
            (Ok (Summary (endPage cfg - startPage cfg + 1)
                         (total_urls st) (Store.count (table st)))).
Proof.
  intros Hw. unfold main.
  destruct (maxWorkers cfg <=? 0) eqn:E; [lia|reflexivity].
Qed.

Lemma crawl_page_resolved (page : Z) (base first : string)
    (list_url : string) (items : list Extractor.article) :
  crawl_page str_format http_get page base first = Ok (list_url, items) ->
  resolve_list_url str_format page base first = Ok list_url.
Proof.
  unfold crawl_page. destruct (resolve_list_url str_format page base first) as [lu|e]; [|done].
  destruct (http_get page lu); intros H; inversion H; now subst.
Qed.

(** C8 (page-URL resolution).  When the page number is 1 and the
    first-page override is a non-empty string, the target address is the
    override itself; for any other page, or with an empty override, it is
    whatever formatting the template with the page number gives.  The
    request of [crawl_page] goes to that target, and the address it
    returns with its records is that target. *)
Theorem C8_page_url_resolution (page : Z) (base first : string) :
  (page = 1 -> first <> EmptyString -> resolve_list_url str_format page base first = Ok first)
  /\ (page <> 1 \/ first = EmptyString ->
      resolve_list_url str_format page base first = str_format base page)
  /\ (forall list_url,
        resolve_list_url str_format page base first = Ok list_url ->
        crawl_page str_format http_get page base first
        = Ok (list_url,
              match http_get page list_url with
              | Document soup => Extractor.extract soup
              | _ => []
              end))
  /\ (forall list_url items,
        crawl_page str_format http_get page base first = Ok (list_url, items) ->
        resolve_list_url str_format page base first = Ok list_url).
Proof.
  split; [|split; [|split]].
  - unfold resolve_list_url. intros -> Hf.
    destruct first; [congruence|reflexivity].
  - unfold resolve_list_url. intros [Hp| ->].
    + apply Z.eqb_neq in Hp. now rewrite Hp.
    + now rewrite andb_false_r.
  - intros list_url Hr. unfold crawl_page. rewrite Hr.
    now destruct (http_get page list_url).
  - intros list_url items. apply crawl_page_resolved.
Qed.

Lemma completion_order_map {A B : Type} (f : A -> B) (fuel : nat) :
  forall (sched : list nat) (pending : list A),
    completion_order fuel sched (map f pending)
    = map f (completion_order fuel sched pending).
Proof.
  induction fuel as [|fuel IH]; intros sched pending; [reflexivity|].
  simpl. rewrite length_map.
  change (map f pending) with (f <$> pending).
  rewrite list_lookup_fmap.
  destruct (pending !! (hd 0%nat sched mod length pending)%nat) as [x|];
    [|reflexivity].
  simpl. f_equal.
  rewrite <- (IH (tl sched)). f_equal.
  generalize (hd 0%nat sched mod length pending)%nat as i.
  clear. induction pending as [|y pending IHp]; intros [|i]; simpl; try done.
  f_equal. apply IHp.
Qed.

(** [as_completed] on the futures is [as_completed] on their pages. *)
Lemma as_completed_map {A B : Type} (f : A -> B) (sched : list nat)
    (futures : list A) :
  as_completed sched (map f futures) = map f (as_completed sched futures).
Proof.
  unfold as_completed. rewrite length_map. apply completion_order_map.
Qed.

Lemma crawl_page_logged_result (page : Z) (base first : string) :
  snd (crawl_page_logged str_format http_get page base first)
  = crawl_page str_format http_get page base first.
Proof.
  unfold crawl_page_logged, crawl_page.
  now destruct (resolve_list_url str_format page base first).
Qed.

Lemma crawl_page_logged_requests (page : Z) (base first : string) :
  fst (crawl_page_logged str_format http_get page base first)
  = match resolve_list_url str_format page base first with
    | Ok list_url => [Get page list_url]
    | Raise _ => []
    end.
Proof.
  unfold crawl_page_logged.
  now destruct (resolve_list_url str_format page base first).
Qed.

(** Consuming the future of a page is consuming its result. *)
Lemma consume_future_submit (cfg : config) (st : run_state) (page : Z) :
  consume_future st (submit str_format http_get cfg page)
  = consume str_format http_get cfg st page.
Proof.
  unfold consume_future, submit, consume. simpl.
  rewrite crawl_page_logged_result.
  now destruct (crawl_page str_format http_get page _ _) as [[lu items]|e].
Qed.

Lemma foldl_consume_future (cfg : config) (pages : list Z) :
  forall st,
    foldl consume_future st (map (submit str_format http_get cfg) pages)
    = foldl (consume str_format http_get cfg) st pages.
Proof.
  induction pages as [|page pages IH]; intros st; [reflexivity|].
  simpl. now rewrite consume_future_submit, IH.
Qed.

Lemma in_requests_of (cfg : config) (pages : list Z) (page : Z)
    (list_url : string) :
  In (Get page list_url)
     (flat_map future_requests (map (submit str_format http_get cfg) pages))
  <-> In page pages
      /\ resolve_list_url str_format page (baseUrl cfg) (firstPageUrl cfg)
         = Ok list_url.
Proof.
  rewrite in_flat_map. split.
  - intros (fut & Hfut & Hin). apply in_map_iff in Hfut as (p & <- & Hp).
    simpl in Hin. rewrite crawl_page_logged_requests in Hin.
    destruct (resolve_list_url str_format p _ _) as [lu|e] eqn:Hr;
      [|destruct Hin].
    destruct Hin as [Heq|[]]. inversion Heq; subst. done.
  - intros [Hp Hr]. exists (submit str_format http_get cfg page).
    split; [now apply in_map|].
    simpl. rewrite crawl_page_logged_requests, Hr. now left.
Qed.

Lemma requests_of_NoDup (cfg : config) (pages : list Z) :
  List.NoDup pages ->
  List.NoDup
    (flat_map future_requests (map (submit str_format http_get cfg) pages)).
Proof.
  induction 1 as [|page pages Hnotin Hnd IH]; simpl; [constructor|].
  rewrite crawl_page_logged_requests.
  destruct (resolve_list_url str_format page _ _) as [lu|e]; [|exact IH].
  simpl. constructor; [|exact IH].
  intros Hin. apply in_requests_of in Hin as [Hin _]. done.
Qed.

(** C9 (exactly-once page dispatch).  The pages submitted are exactly
    those of the inclusive range, each once, in ascending order, one
    future per page; the completion loop is handed each of these futures
    exactly once; and a run whose pool could be created prints
    [endPage - startPage + 1] as the number of pages, whatever the
    network answered.  For a range that is not inverted that number is
    the number of tasks.  The requests of the run are one per submitted
    page whose address resolves, to that address, and none is repeated:
    no page is fetched twice.  What the run leaves and prints is the
    result of consuming each future once, in the order [as_completed]
    yields them. *)
Theorem C9_exactly_once_dispatch (cfg : config) (sched : list nat)
    (db : option (gmap string Store.row)) :
  0 < maxWorkers cfg ->
  (forall page, In page (submitted cfg)
                <-> startPage cfg <= page <= endPage cfg)
  /\ List.NoDup (submitted cfg)
  /\ StronglySorted Z.lt (submitted cfg)
  /\ Permutation (as_completed sched (submitted cfg)) (submitted cfg)
  /\ (exists s, printed (main str_format http_get cfg sched db) = Ok s
                /\ total_pages s = endPage cfg - startPage cfg + 1)
  /\ (startPage cfg <= endPage cfg + 1 ->
      Z.of_nat (length (submitted cfg)) = endPage cfg - startPage cfg + 1)
  /\ map future_page (submit_all str_format http_get cfg) = submitted cfg
  /\ Permutation (as_completed sched (submit_all str_format http_get cfg))
                 (submit_all str_format http_get cfg)
  /\ (forall page list_url,
        In (Get page list_url) (requests_issued str_format http_get cfg)
        <-> startPage cfg <= page <= endPage cfg
            /\ resolve_list_url str_format page (baseUrl cfg)
                                (firstPageUrl cfg) = Ok list_url)
  /\ List.NoDup (requests_issued str_format http_get cfg)
  /\ (forall page,
        (length (List.filter (is_request_for page)
                   (requests_issued str_format http_get cfg)) <= 1)%nat)
  /\ main str_format http_get cfg sched db
     = (let st :=
          foldl consume_future
                (RunState (Store.ensure_schema db) 0 [])
                (as_completed sched (submit_all str_format http_get cfg)) in
        Outcome (table st)
                (setup_events ++ trace st ++ report_events)
                (Ok (Summary (endPage cfg - startPage cfg + 1)
                             (total_urls st) (Store.count (table st))))).
Proof.
  intros Hw.
  assert (Hin : forall page, In page (submitted cfg)
                             <-> startPage cfg <= page <= endPage cfg).
  { intros page. unfold submitted. rewrite in_py_range. lia. }
  assert (Hreq : forall page list_url,
             In (Get page list_url) (requests_issued str_format http_get cfg)
             <-> startPage cfg <= page <= endPage cfg
                 /\ resolve_list_url str_format page (baseUrl cfg)
                                     (firstPageUrl cfg) = Ok list_url).
  { intros page list_url. unfold requests_issued, submit_all.
    now rewrite in_requests_of, Hin. }
  assert (Hnd : List.NoDup (requests_issued str_format http_get cfg)).
  { apply requests_of_NoDup, py_range_NoDup. }
  split; [exact Hin|].
  split; [apply py_range_NoDup|].
  split; [apply py_range_sorted|].
  split; [apply as_completed_perm|].
  split; [rewrite main_completes by done; simpl; eauto|].
  split; [intros H; unfold submitted; rewrite length_py_range; lia|].
  split.
  { unfold submit_all. rewrite map_map. simpl. apply map_id. }
  split; [apply as_completed_perm|].
  split; [exact Hreq|]. split; [exact Hnd|]. split.
  - intros page.
    destruct (List.filter _ (requests_issued str_format http_get cfg))
      as [|[p1 u1] [|[p2 u2] rest]] eqn:Hf; simpl; try lia.
    exfalso.
    assert (H1 : In (Get p1 u1)
                    (List.filter
                       (is_request_for page)
                       (requests_issued str_format http_get cfg)))
      by (rewrite Hf; now left).
    assert (H2 : In (Get p2 u2)
                    (List.filter
                       (is_request_for page)
                       (requests_issued str_format http_get cfg)))
      by (rewrite Hf; right; now left).
    apply filter_In in H1 as [H1 E1]. apply filter_In in H2 as [H2 E2].
    simpl in E1, E2. apply Z.eqb_eq in E1, E2. subst p1 p2.
    apply Hreq in H1 as [_ H1]. apply Hreq in H2 as [_ H2].
    assert (u1 = u2) by congruence. subst u2.
    assert (Hndf : List.NoDup
                     (List.filter
                        (is_request_for page)
                        (requests_issued str_format http_get cfg)))
      by now apply List.NoDup_filter.
    rewrite Hf in Hndf. apply List.NoDup_cons_iff in Hndf as [Hnotin _].
    apply Hnotin. now left.
  - rewrite main_completes by done. simpl. unfold coordinator, submit_all.
    now rewrite as_completed_map, foldl_consume_future.
Qed.

(** The three ways a page comes back with no record: the request or the
    parser failed, the document has no container, or no link of the
    container passes the guard. *)
Lemma crawl_page_empty_causes (page : Z) (base first list_url : string) :
  resolve_list_url str_format page base first = Ok list_url ->
  match http_get page list_url with
  | RequestException _ | OtherException => True
  | Document soup =>
      match Soup.find "div" (Some Extractor.container_class) soup with
      | None => True
      | Some target_div =>
          forall link, In link (Soup.find_all_links target_div) ->
                       Extractor.qualifies link = false
      end
  end ->
  crawl_page str_format http_get page base first = Ok (list_url, []).
Proof.
  intros Hr. unfold crawl_page. rewrite Hr.
  destruct (http_get page list_url) as [e| |soup]; try done.
  unfold Extractor.extract.
  destruct (Soup.find _ _ soup) as [target_div|]; [|done].
  intros H. now rewrite extract_items_none.
Qed.

(** C10 (frame property of an empty page).  Consuming a page whose record
    list is empty leaves the coordinator's state as it was: the table is
    unchanged, no lock or connection event is added (no connection is
    opened, no insert executed), and the running total grows by zero.
    The page count printed at the end of the run is still
    [endPage - startPage + 1]. *)
Theorem C10_empty_page_frame (cfg : config) (st : run_state) (page : Z)
    (list_url : string) :
  crawl_page str_format http_get page (baseUrl cfg) (firstPageUrl cfg) = Ok (list_url, []) ->
  consume str_format http_get cfg st page = st
  /\ table (consume str_format http_get cfg st page) = table st
  /\ trace (consume str_format http_get cfg st page) = trace st
  /\ total_urls (consume str_format http_get cfg st page) = total_urls st + 0
  /\ page_batch str_format http_get cfg page = []
  /\ (forall sched db,
        0 < maxWorkers cfg ->
        exists s, printed (main str_format http_get cfg sched db) = Ok s
                  /\ total_pages s = endPage cfg - startPage cfg + 1).
Proof.
  intros H. unfold consume, page_batch, page_items. rewrite H. simpl.
  rewrite Z.add_0_r.
  split; [now destruct st|]. split; [done|]. split; [done|].
  split; [lia|]. split; [done|].
  intros sched db Hw. rewrite main_completes by done. simpl. eauto.
Qed.

(** C6 (degraded title).  A link of the container whose address passes
    the guard and which has no [h5] of the heading class below it still
    contributes its record, and the title of that record is the empty
    string. *)
Theorem C6_missing_heading_empty_title (soup target_div link : Soup.node)
    (href : string) :
  Soup.find "div" (Some Extractor.container_class) soup = Some target_div ->
  In link (Soup.find_all_links target_div) ->
  Soup.get_href link = Some href ->
  PyStr.match_detail_url href = true ->
  Soup.find "h5" (Some Extractor.heading_class) link = None ->
  exists r,
    Extractor.extract_link link = Some r
    /\ In r (Extractor.extract soup)
    /\ Extractor.url r = href
    /\ Extractor.title r = EmptyString.
Proof.
  intros Hdiv Hin Hh Hm Hh5.
  exists (Extractor.Article href EmptyString
                            (Extractor.link_publish_time link)).
  assert (Ht : Extractor.link_title link = EmptyString)
    by (unfold Extractor.link_title; now rewrite Hh5).
  repeat split.
  - unfold Extractor.extract_link. now rewrite Hh, Hm, Ht.
  - unfold Extractor.extract. rewrite Hdiv. apply extract_items_gate.
    exists link, href. now rewrite Ht.
Qed.

(** C7 (publish-time fallback chain), as the code has it.  When the
    visible time element is present and its stripped text is not empty,
    that text is the publish time.  When it is absent, or present with a
    blank text, the publish time is the text of the first [span] of the
    hidden time box, a full stop, and the text of the first [p] of that
    box, provided the box and both fragments are there, and the empty
    string otherwise.  The record of a qualifying link carries that
    value. *)
Theorem C7_publish_time_fallback (link : Soup.node) :
  (forall v,
     Soup.find "p" (Some Extractor.visible_time_class) link = Some v ->
     PyStr.strip (Soup.text v) <> EmptyString ->
     Extractor.link_publish_time link = PyStr.strip (Soup.text v))
  /\ ((Soup.find "p" (Some Extractor.visible_time_class) link = None
       \/ exists v,
            Soup.find "p" (Some Extractor.visible_time_class) link = Some v
            /\ PyStr.strip (Soup.text v) = EmptyString) ->
      (forall time_div span p,
         Soup.find "div" (Some Extractor.hidden_time_class) link
           = Some time_div ->
         Soup.find "span" None time_div = Some span ->
         Soup.find "p" None time_div = Some p ->
         Extractor.link_publish_time link
           = Soup.text span +:+ "." +:+ Soup.text p)
      /\ ((Soup.find "div" (Some Extractor.hidden_time_class) link = None
           \/ exists time_div,
                Soup.find "div" (Some Extractor.hidden_time_class) link
                  = Some time_div
                /\ (Soup.find "span" None time_div = None
                    \/ Soup.find "p" None time_div = None)) ->
          Extractor.link_publish_time link = EmptyString))
  /\ (forall r,
        Extractor.extract_link link = Some r ->
        Extractor.publish_time r = Extractor.link_publish_time link).
Proof.
  split; [|split].
  - intros v Hv Hne. unfold Extractor.link_publish_time. rewrite Hv.
    destruct (PyStr.strip (Soup.text v)); [congruence|reflexivity].
  - intros Hblank.
    assert (Hfall : Extractor.link_publish_time link
                    = Extractor.hidden_time link EmptyString).
    { unfold Extractor.link_publish_time.
      destruct Hblank as [->|(v & -> & ->)]; reflexivity. }
    rewrite Hfall. unfold Extractor.hidden_time. split.
    + intros time_div span p -> -> ->. reflexivity.
    + intros [->|(time_div & -> & [->| ->])]; [reflexivity| |].
      * reflexivity.
      * now destruct (Soup.find "span" None time_div).
  - intros r. unfold Extractor.extract_link.
    destruct (Soup.get_href link) as [href|]; [|discriminate].
    destruct (PyStr.match_detail_url href); [|discriminate].
    intros H. inversion H. reflexivity.
Qed.

(** C1 (idempotent re-ingestion).  Running [main] a second time on the
    table the first run left, with the same configuration, the same
    network answers and any completion order, leaves the table exactly
    as it was, rows included; the row count is unchanged, and both runs
    print the same count (or both stop at the pool).  An
    insert-or-ignore on a table that already holds a row for the item's
    URL returns the table unchanged, so the old row stays. *)
Theorem C1_reingestion_idempotent (cfg : config) (sched1 sched2 : list nat)
    (db : option (gmap string Store.row)) :
  let first := main str_format http_get cfg sched1 db in
  let second := main str_format http_get cfg sched2 (Some (final_table first)) in
  final_table second = final_table first
  /\ Store.count (final_table second) = Store.count (final_table first)
  /\ match printed first, printed second with
     | Ok s1, Ok s2 => total_in_db s2 = total_in_db s1
     | Raise _, Raise _ => True
     | _, _ => False
     end
  /\ (forall list_url (t : gmap string Store.row) item old,
        Store.insert_or_ignore list_url (<[Extractor.url item := old]> t) item
        = <[Extractor.url item := old]> t).
Proof.
  intros first second.
  assert (Htable : final_table second = final_table first).
  { subst first second. unfold main.
    destruct (maxWorkers cfg <=? 0); simpl; [reflexivity|].
    unfold coordinator. apply (run_present _ _ _ _ (RunState _ 0 [])).
    simpl. intros u Hu.
    apply (run_dom _ _ _ _ (RunState _ 0 [])). right.
    eapply Permutation_in; [|exact Hu].
    apply urls_of_perm.
    etransitivity; [apply as_completed_perm|].
    symmetry. apply as_completed_perm. }
  split; [exact Htable|]. split; [now rewrite Htable|]. split.
  - subst first second. unfold main in *.
    destruct (maxWorkers cfg <=? 0); simpl in *; [done|].
    now rewrite Htable.
  - intros list_url t item old. apply insert_or_ignore_present.
    rewrite lookup_insert_eq. eauto.
Qed.

(** C2 (extracted total against stored count), as the code has it.  A
    run whose pool could be created prints a total of extracted records
    equal to the number of URLs extracted over the page range, duplicates
    included.  That total is at least the number of rows the run added
    (the count printed minus the count the table had before the run),
    with equality exactly when no URL appears twice across the page range
    and none of them was in the table before.  On a table that was empty
    before the run, the total is at least the count printed, with
    equality exactly when no URL appears twice across the page range. *)
Theorem C2_extracted_vs_stored (cfg : config) (sched : list nat)
    (db : option (gmap string Store.row)) :
  0 < maxWorkers cfg ->
  exists s,
    printed (main str_format http_get cfg sched db) = Ok s
    /\ extracted s
       = Z.of_nat (length (all_urls str_format http_get cfg))
    /\ extracted s
       >= total_in_db s - Store.count (Store.ensure_schema db)
    /\ (extracted s = total_in_db s - Store.count (Store.ensure_schema db)
        <-> List.NoDup (all_urls str_format http_get cfg)
            /\ forall u, In u (all_urls str_format http_get cfg) ->
                         Store.ensure_schema db !! u = None)
    /\ (Store.ensure_schema db = ∅ ->
        extracted s >= total_in_db s
        /\ (extracted s = total_in_db s
            <-> List.NoDup (all_urls str_format http_get cfg))).
Proof.
  intros Hw. rewrite main_completes by done. simpl.
  eexists. split; [reflexivity|]. simpl.
  unfold coordinator, all_urls, Store.count.
  set (order := as_completed sched (submitted cfg)).
  set (t0 := Store.ensure_schema db).
  assert (Hperm : Permutation (urls_of str_format http_get cfg order)
                              (urls_of str_format http_get cfg (submitted cfg)))
    by apply urls_of_perm, as_completed_perm.
  pose proof (run_total str_format http_get cfg order (RunState t0 0 []))
    as Htot.
  destruct (run_size str_format http_get cfg order (RunState t0 0 []))
    as [Hle Heq].
  simpl in Htot, Hle, Heq. rewrite Htot.
  rewrite (Permutation_length Hperm) in *.
  assert (Hiff :
    size (table (foldl (consume str_format http_get cfg)
                       (RunState t0 0 []) order))
      = (size t0
         + length (urls_of str_format http_get cfg (submitted cfg)))%nat
    <-> List.NoDup (urls_of str_format http_get cfg (submitted cfg))
        /\ forall u, In u (urls_of str_format http_get cfg (submitted cfg))
                     -> t0 !! u = None).
  { rewrite Heq. split; intros [Hnd Hf]; split.
    - eapply Permutation_NoDup; eauto.
    - intros u Hu. apply Hf. eapply Permutation_in; [symmetry|]; eauto.
    - eapply Permutation_NoDup; [symmetry|]; eauto.
    - intros u Hu. apply Hf. eapply Permutation_in; eauto. }
  split; [lia|]. split; [lia|]. split.
  - rewrite <- Hiff. lia.
  - intros Hempty. rewrite Hempty in *. rewrite map_size_empty in *.
    split; [lia|]. transitivity
      (size (table (foldl (consume str_format http_get cfg)
                          (RunState ∅ 0 []) order))
       = (0 + length (urls_of str_format http_get cfg (submitted cfg)))%nat);
      [lia|].
    rewrite Hiff. split; [tauto|]. intros Hnd. split; [done|].
    intros u _. apply lookup_empty.
Qed.

(** C3 (single serialized writer).  The lock and connection events of a
    run are the schema set-up, then one whole batch per consumed page
    that has records, in completion order, then the final count; each
    batch is acquire, connect, the page's inserts, commit, close,
    release.  The monitor accepts this trace: the lock never has two
    holders, at most one connection is open, every page connection is
    opened, used and closed while its page holds the lock, and the lock
    is released only after the connection is closed. *)
Theorem C3_single_writer (cfg : config) (sched : list nat)
    (db : option (gmap string Store.row)) :
  serialized (events (main str_format http_get cfg sched db))
  /\ events (main str_format http_get cfg sched db)
     = setup_events
       ++ (if maxWorkers cfg <=? 0 then []
           else flat_map (page_batch str_format http_get cfg)
                         (as_completed sched (submitted cfg))
                ++ report_events)
  /\ (forall page,
        page_batch str_format http_get cfg page
        = match page_items str_format http_get cfg page with
          | [] => []
          | item :: items => batch_events page (item :: items)
          end).
Proof.
  assert (Hbatch : forall page,
             serialized (page_batch str_format http_get cfg page)).
  { intros page. unfold page_batch.
    destruct (page_items str_format http_get cfg page).
    - apply serialized_nil.
    - apply batch_events_serialized. }
  assert (Hev : events (main str_format http_get cfg sched db)
     = setup_events
       ++ (if maxWorkers cfg <=? 0 then []
           else flat_map (page_batch str_format http_get cfg)
                         (as_completed sched (submitted cfg))
                ++ report_events)).
  { unfold main. destruct (maxWorkers cfg <=? 0); simpl events.
    - now rewrite app_nil_r.
    - unfold coordinator. now rewrite run_trace. }
  split; [|split; [exact Hev|]].
  - rewrite Hev. apply serialized_app; [reflexivity|].
    destruct (maxWorkers cfg <=? 0); [apply serialized_nil|].
    apply serialized_app; [|reflexivity].
    now apply serialized_flat_map.
  - intros page. unfold page_batch.
    now destruct (page_items str_format http_get cfg page).
Qed.

(** C4 (failure isolation).  When the request of a page ends in a
    [RequestException] (time-out, connection failure, error status) or
    in any other exception, [crawl_page] returns the resolved list URL
    with an empty record list instead of raising.  A run whose pool could
    be created prints its summary, and whatever happened to the other
    pages, every record of every submitted page that returned records has
    its URL in the table the run leaves. *)
Theorem C4_failure_isolation (cfg : config) (sched : list nat)
    (db : option (gmap string Store.row)) :
  0 < maxWorkers cfg ->
  (forall page base first list_url,
     resolve_list_url str_format page base first = Ok list_url ->
     (exists e, http_get page list_url = RequestException e)
     \/ http_get page list_url = OtherException ->
     crawl_page str_format http_get page base first = Ok (list_url, []))
  /\ (exists s, printed (main str_format http_get cfg sched db) = Ok s)
  /\ (forall page list_url items item,
        In page (submitted cfg) ->
        crawl_page str_format http_get page (baseUrl cfg) (firstPageUrl cfg) = Ok (list_url, items) ->
        In item items ->
        is_Some (final_table (main str_format http_get cfg sched db) !! Extractor.url item)).
Proof.
  intros Hw. split; [|split].
  - intros page base first list_url Hr Hfail.
    apply crawl_page_empty_causes; [done|].
    destruct Hfail as [[e ->]| ->]; done.
  - rewrite main_completes by done. simpl. eauto.
  - intros page list_url items item Hpage Hcrawl Hitem.
    rewrite main_completes by done. simpl. unfold coordinator.
    apply run_dom. right. unfold urls_of. apply in_flat_map.
    exists page. split.
    + eapply Permutation_in; [symmetry; apply as_completed_perm|done].
    + unfold page_items. rewrite Hcrawl. now apply in_map.
Qed.

End Properties.

(* ===================================================================== *)
(** ** The properties at concrete inputs                                  *)
(* ===================================================================== *)

(** The template of the sample configuration, formatted. *)
Example simple_format_list_2 :
  Sample.simple_format "https://news.ruc.edu.cn/list_{page}.html" 2
  = Ok "https://news.ruc.edu.cn/list_2.html".
Proof. reflexivity. Qed.

(** The extractor on the first sample page: the foreign link is left
    out, the bare link has an empty title and the hidden time. *)
Example extract_page_one :
  Extractor.extract Sample.page_one
  = [Extractor.Article "https://news.ruc.edu.cn/101.html" "Title A"
                       "2024-01-15";
     Extractor.Article "https://news.ruc.edu.cn/102.html" EmptyString
                       "2024.01.16"].
Proof. reflexivity. Qed.

(** The same link on each of three pages, on a fresh database: three
    records extracted, one row stored. *)
Example duplicates_across_pages :
  printed (main Sample.simple_format Sample.net_dup Sample.cfg_1_3 [1; 1]%nat
                None)
  = Ok (Summary 3 3 1).
Proof. vm_compute. reflexivity. Qed.

(** A non-positive worker count stops the run at the pool. *)
Example no_workers_no_run :
  printed (main Sample.simple_format Sample.net_1_3
                (Config "articles.duckdb" "list_{page}.html" 1 3 EmptyString 0)
                [] None)
  = Raise ValueError.
Proof. reflexivity. Qed.

(** The scenario of the specification: pages 1 to 3, page 1 with two
    qualifying links of which one is already stored, page 2 with none,
    page 3 timing out.  Three pages, two records, one new row. *)
Example scenario_1_3 :
  printed (main Sample.simple_format Sample.net_1_3 Sample.cfg_1_3 [2; 0]%nat
                (Some Sample.table_one))
  = Ok (Summary 3 2 2)
  /\ Store.count Sample.table_one = 1.
Proof. split; vm_compute; reflexivity. Qed.

(** C5 (pattern gate) at the input where the code leaves it.  The guard
    of line 89 ends in [$], which also succeeds just before a final line
    feed: a link whose address is the detail-page address followed by a
    line feed is not of the form host, digits, [.html] and nothing else,
    and yet it contributes a record, with the line feed in its URL. *)
Theorem C5_trailing_line_feed_passes_gate :
  ~ PyStr.exact_detail_url Sample.href_trailing_lf
  /\ Extractor.extract (Sample.listing [Sample.link_trailing_lf])
     = [Extractor.Article Sample.href_trailing_lf "Title C" EmptyString].
Proof.
  split; [|reflexivity].
  intros (d & Hne & Hd & Heq).
  apply (f_equal (PyStr.strip_prefix PyStr.detail_prefix)) in Heq.
  rewrite strip_prefix_app in Heq. vm_compute in Heq.
  injection Heq as Heq.
  apply (f_equal PyStr.skip_digits) in Heq.
  change (String "." (String "h" (String "t" (String "m" (String "l" "")))))
    with PyStr.detail_suffix in Heq.
  rewrite skip_digits_app in Heq by (auto; reflexivity).
  vm_compute in Heq. discriminate.
Qed.

(** C2 as worded fails on a store that is not empty before the run: with
    one row already stored and every request timing out, the run prints
    zero records extracted and one URL stored. *)
Lemma C2_counterexample :
  ~ completion_count_claim Sample.simple_format Sample.net_down
      Sample.cfg_1_3 [] (Some Sample.table_one).
Proof.
  intros H.
  destruct (H (Summary 3 0 1)) as [Hge _]; [vm_compute; reflexivity|].
  simpl in Hge. lia.
Qed.

(** C7 as worded fails on a link whose visible time element is present
    but blank while the hidden time box is filled: the code falls through
    to the hidden box and joins its fragments with a full stop, where the
    wording gives the blank element's empty text. *)
Lemma C7_counterexample :
  Extractor.qualifies Sample.link_blank_visible = true
  /\ Extractor.link_publish_time Sample.link_blank_visible = "2024.02.03"
  /\ Extractor.spec_publish_time Sample.link_blank_visible = EmptyString
  /\ Extractor.link_publish_time Sample.link_blank_visible
     <> Extractor.spec_publish_time Sample.link_blank_visible.
Proof. repeat split; try reflexivity. discriminate. Qed.

(** Page 1 of the sample configuration goes to the override, page 2 to
    the formatted template. *)
Lemma C8_witness :
  1 = 1
  /\ Sample.cfg_1_3.(firstPageUrl) <> EmptyString
  /\ resolve_list_url Sample.simple_format 1
       Sample.cfg_1_3.(baseUrl) Sample.cfg_1_3.(firstPageUrl)
     = Ok "https://news.ruc.edu.cn/index.html"
  /\ (2 <> 1 \/ Sample.cfg_1_3.(firstPageUrl) = EmptyString)
  /\ resolve_list_url Sample.simple_format 2
       Sample.cfg_1_3.(baseUrl) Sample.cfg_1_3.(firstPageUrl)
     = Ok "https://news.ruc.edu.cn/list_2.html".
Proof.
  split; [reflexivity|]. split; [discriminate|]. split.
  - apply (C8_page_url_resolution Sample.simple_format Sample.net_1_3 1
             Sample.cfg_1_3.(baseUrl) Sample.cfg_1_3.(firstPageUrl));
      [reflexivity|discriminate].
  - split; [left; discriminate|].
    destruct (C8_page_url_resolution Sample.simple_format Sample.net_1_3 2
                Sample.cfg_1_3.(baseUrl) Sample.cfg_1_3.(firstPageUrl))
      as (_ & H & _ & _).
    rewrite H; [reflexivity|left; discriminate].
Defined.

(** The sample run submits pages 1, 2, 3, issues one request for each,
    and prints three pages although page 3 times out. *)
Lemma C9_witness :
  0 < maxWorkers Sample.cfg_1_3
  /\ submitted Sample.cfg_1_3 = [1; 2; 3]
  /\ requests_issued Sample.simple_format Sample.net_1_3 Sample.cfg_1_3
     = [Get 1 "https://news.ruc.edu.cn/index.html";
        Get 2 "https://news.ruc.edu.cn/list_2.html";
        Get 3 "https://news.ruc.edu.cn/list_3.html"]
  /\ List.NoDup
       (requests_issued Sample.simple_format Sample.net_1_3 Sample.cfg_1_3)
  /\ exists s,
       printed (main Sample.simple_format Sample.net_1_3 Sample.cfg_1_3
                     [2; 0]%nat (Some Sample.table_one)) = Ok s
       /\ total_pages s = 3.
Proof.
  split; [reflexivity|]. split; [reflexivity|]. split; [reflexivity|].
  destruct (C9_exactly_once_dispatch Sample.simple_format Sample.net_1_3
              Sample.cfg_1_3 [2; 0]%nat (Some Sample.table_one) eq_refl)
    as (_ & _ & _ & _ & H & _ & _ & _ & _ & Hnd & _).
  split; [exact Hnd|exact H].
Defined.

(** Page 3 of the sample run times out; consuming it changes nothing. *)
Lemma C10_witness :
  crawl_page Sample.simple_format Sample.net_1_3 3
    Sample.cfg_1_3.(baseUrl) Sample.cfg_1_3.(firstPageUrl)
  = Ok ("https://news.ruc.edu.cn/list_3.html", [])
  /\ consume Sample.simple_format Sample.net_1_3 Sample.cfg_1_3
       (RunState Sample.table_one 2 []) 3
     = RunState Sample.table_one 2 [].
Proof.
  split; [reflexivity|].
  apply (C10_empty_page_frame Sample.simple_format Sample.net_1_3
           Sample.cfg_1_3 (RunState Sample.table_one 2 []) 3
           "https://news.ruc.edu.cn/list_3.html" eq_refl).
Defined.

(** The bare link of the first sample page has no heading and is in the
    result with an empty title. *)
Lemma C6_witness :
  exists r,
    In r (Extractor.extract Sample.page_one)
    /\ Extractor.url r = "https://news.ruc.edu.cn/102.html"
    /\ Extractor.title r = EmptyString.
Proof.
  destruct (C6_missing_heading_empty_title Sample.page_one
              (Sample.container
                 [Sample.link_full; Sample.link_foreign; Sample.link_bare])
              Sample.link_bare "https://news.ruc.edu.cn/102.html")
    as (r & _ & Hin & Hu & Ht).
  - reflexivity.
  - vm_compute. right. right. left. reflexivity.
  - reflexivity.
  - reflexivity.
  - reflexivity.
  - exists r. auto.
Defined.

(** The three branches of the publish time on sample links: visible
    text, hidden box behind a blank visible element, nothing. *)
Lemma C7_witness :
  Extractor.link_publish_time Sample.link_full = "2024-01-15"
  /\ Extractor.link_publish_time Sample.link_blank_visible = "2024.02.03"
  /\ Extractor.link_publish_time Sample.link_foreign = EmptyString.
Proof.
  split; [|split].
  - destruct (C7_publish_time_fallback Sample.link_full) as (H & _ & _).
    rewrite (H (Sample.visible_time " 2024-01-15 ")); [reflexivity..|].
    discriminate.
  - destruct (C7_publish_time_fallback Sample.link_blank_visible)
      as (_ & H & _).
    destruct H as [H _].
    + right. exists (Sample.visible_time "   "). split; reflexivity.
    + apply (H (Sample.hidden_time_box "2024.02" "03")
               (Soup.Elem "span" [] None [Soup.Text "2024.02"])
               (Soup.Elem "p" [] None [Soup.Text "03"])); reflexivity.
  - destruct (C7_publish_time_fallback Sample.link_foreign) as (_ & H & _).
    destruct H as [_ H]; [left; reflexivity|].
    apply H. left. reflexivity.
Defined.

(** The sample run on a store of one row: two records extracted, one
    row added. *)
Lemma C2_witness :
  0 < maxWorkers Sample.cfg_1_3
  /\ exists s,
       printed (main Sample.simple_format Sample.net_1_3 Sample.cfg_1_3
                     [2; 0]%nat (Some Sample.table_one)) = Ok s
       /\ extracted s = 2
       /\ extracted s >= total_in_db s - 1.
Proof.
  split; [reflexivity|].
  destruct (C2_extracted_vs_stored Sample.simple_format Sample.net_1_3
              Sample.cfg_1_3 [2; 0]%nat (Some Sample.table_one) eq_refl)
    as (s & Hs & Hex & Hge & _).
  exists s. split; [exact Hs|]. split; [exact Hex|exact Hge].
Defined.

(** In the sample run page 3 times out and returns no record, and the
    new address of page 1 is stored all the same. *)
Lemma C4_witness :
  0 < maxWorkers Sample.cfg_1_3
  /\ crawl_page Sample.simple_format Sample.net_1_3 3
       Sample.cfg_1_3.(baseUrl) Sample.cfg_1_3.(firstPageUrl)
     = Ok ("https://news.ruc.edu.cn/list_3.html", [])
  /\ is_Some (final_table
                (main Sample.simple_format Sample.net_1_3 Sample.cfg_1_3
                      [2; 0]%nat (Some Sample.table_one))
              !! "https://news.ruc.edu.cn/102.html").
Proof.
  split; [reflexivity|].
  destruct (C4_failure_isolation Sample.simple_format Sample.net_1_3
              Sample.cfg_1_3 [2; 0]%nat (Some Sample.table_one) eq_refl)
    as (Hfail & _ & Hstored).
  split.
  - apply Hfail; [reflexivity|]. left. exists Timeout. reflexivity.
  - apply (Hstored 1 "https://news.ruc.edu.cn/index.html"
             (Extractor.extract Sample.page_one)
             (Extractor.Article "https://news.ruc.edu.cn/102.html"
                                EmptyString "2024.01.16")).
    + left. reflexivity.
    + reflexivity.
    + right. left. reflexivity.
Defined.

(* ===================================================================== *)
(** ** Further properties: white space                                    *)
(* ===================================================================== *)

Lemma lstrip_head (s : string) (c : ascii) (t : string) :
  PyStr.lstrip s = String c t -> PyStr.isspace c = false.
Proof.
  induction s as [|a s IH]; simpl; [discriminate|].
  destruct (PyStr.isspace a) eqn:Ha; [exact IH|].
  intros H. inversion H; now subst.
Qed.

Lemma lstrip_fixed (s : string) :
  match s with
  | EmptyString => True
  | String c _ => PyStr.isspace c = false
  end ->
  PyStr.lstrip s = s.
Proof. destruct s as [|c s]; simpl; [done|]. now intros ->. Qed.

Lemma rstrip_head (s : string) (c : ascii) (t : string) :
  PyStr.rstrip s = String c t -> exists t', s = String c t'.
Proof.
  destruct s as [|a s]; simpl; [discriminate|].
  destruct (PyStr.rstrip s).
  - destruct (PyStr.isspace a); [discriminate|].
    intros H. inversion H; subst. eauto.
  - intros H. inversion H; subst. eauto.
Qed.

Lemma rstrip_last (s : string) :
  forall (t : string) (c : ascii),
    PyStr.rstrip s = t +:+ String c EmptyString -> PyStr.isspace c = false.
Proof.
  induction s as [|a s IH]; intros t c; simpl.
  - destruct t; discriminate.
  - destruct (PyStr.rstrip s) as [|b r] eqn:Hr.
    + destruct (PyStr.isspace a) eqn:Ha.
      * destruct t; discriminate.
      * destruct t as [|x t]; rewrite ?append_nil_l, ?append_cons;
          intros H; inversion H; subst; [done|].
        destruct t; discriminate.
    + destruct t as [|x t]; rewrite ?append_nil_l, ?append_cons;
        intros H; inversion H; subst.
      now apply (IH t c).
Qed.

Lemma rstrip_idempotent (s : string) :
  PyStr.rstrip (PyStr.rstrip s) = PyStr.rstrip s.
Proof.
  induction s as [|a s IH]; simpl; [done|].
  destruct (PyStr.rstrip s) as [|b r] eqn:Hr.
  - destruct (PyStr.isspace a) eqn:Ha; simpl; [done|]. now rewrite Ha.
  - change (PyStr.rstrip (String a (String b r)))
      with (match PyStr.rstrip (String b r) with
            | EmptyString =>
                if PyStr.isspace a then EmptyString else String a EmptyString
            | r' => String a r'
            end).
    now rewrite IH.
Qed.

Lemma strip_head (s : string) (c : ascii) (t : string) :
  PyStr.strip s = String c t -> PyStr.isspace c = false.
Proof.
  unfold PyStr.strip. intros H.
  apply rstrip_head in H as [t' H]. now apply lstrip_head in H.
Qed.

Lemma strip_idempotent (s : string) :
  PyStr.strip (PyStr.strip s) = PyStr.strip s.
Proof.
  unfold PyStr.strip at 1.
  rewrite lstrip_fixed.
  - unfold PyStr.strip. apply rstrip_idempotent.
  - destruct (PyStr.strip s) as [|c t] eqn:H; [done|].
    now apply strip_head in H.
Qed.

Lemma rstrip_empty (s : string) :
  PyStr.rstrip s = EmptyString <-> PyStr.all_space s = true.
Proof.
  unfold PyStr.all_space.
  induction s as [|a s IH]; simpl; [done|].
  rewrite andb_true_iff, <- IH.
  destruct (PyStr.rstrip s); destruct (PyStr.isspace a);
    split; intros H; try done; try (now destruct H).
Qed.

Lemma lstrip_all_space (s : string) :
  PyStr.all_space (PyStr.lstrip s) = PyStr.all_space s.
Proof.
  unfold PyStr.all_space.
  induction s as [|a s IH]; simpl; [done|].
  destruct (PyStr.isspace a) eqn:Ha; simpl; [done|]. now rewrite Ha.
Qed.

(** [s.strip()] is empty exactly when [s] is white space throughout. *)
Lemma strip_empty (s : string) :
  PyStr.strip s = EmptyString <-> PyStr.all_space s = true.
Proof. unfold PyStr.strip. now rewrite rstrip_empty, lstrip_all_space. Qed.

(* ===================================================================== *)
(** ** Further properties: the extractor                                  *)
(* ===================================================================== *)

Lemma link_title_is_stripped (link : Soup.node) :
  exists s, Extractor.link_title link = PyStr.strip s.
Proof.
  unfold Extractor.link_title.
  destruct (Soup.find _ _ link) as [h5|]; [eauto|].
  now exists EmptyString.
Qed.

Lemma extract_unfold (soup : Soup.node) (r : Extractor.article) :
  In r (Extractor.extract soup) ->
  exists target_div,
    Soup.find "div" (Some Extractor.container_class) soup = Some target_div
    /\ In r (Extractor.extract_items target_div).
Proof.
  unfold Extractor.extract.
  destruct (Soup.find _ _ soup) as [target_div|]; [eauto|intros []].
Qed.

(** X1.  A record's title carries no white space at either end: it is a
    fixed point of [strip], its first character is not white space, and
    neither is its last. *)
Theorem extracted_titles_stripped (soup : Soup.node) (r : Extractor.article) :
  In r (Extractor.extract soup) ->
  PyStr.strip (Extractor.title r) = Extractor.title r
  /\ (forall c t, Extractor.title r = String c t -> PyStr.isspace c = false)
  /\ (forall t c, Extractor.title r = t +:+ String c EmptyString ->
                  PyStr.isspace c = false).
Proof.
  intros Hin. apply extract_unfold in Hin as (target_div & _ & Hin).
  apply extract_items_gate in Hin as (link & href & _ & _ & _ & ->).
  simpl. destruct (link_title_is_stripped link) as [s ->].
  split; [apply strip_idempotent|]. split.
  - intros c t. apply strip_head.
  - intros t c. unfold PyStr.strip. apply rstrip_last.
Qed.

Lemma omap_cons_eq {A B : Type} (f : A -> option B) (x : A) (l : list A) :
  omap f (x :: l)
  = match f x with
    | Some y => y :: omap f l
    | None => omap f l
    end.
Proof. reflexivity. Qed.

Lemma extract_links_urls (links : list Soup.node) :
  map Extractor.url (omap Extractor.extract_link links)
  = List.filter PyStr.match_detail_url (omap Soup.get_href links).
Proof.
  induction links as [|link links IH]; [done|].
  rewrite !omap_cons_eq.
  destruct (Extractor.extract_link link) as [r|] eqn:E;
    unfold Extractor.extract_link in E;
    destruct (Soup.get_href link) as [href|]; try done;
    destruct (PyStr.match_detail_url href) eqn:Hm; try done;
    simpl; rewrite Hm; [|done].
  inversion E; subst. simpl. now rewrite IH.
Qed.

Lemma extract_links_length (links : list Soup.node) :
  length (omap Extractor.extract_link links)
  = length (List.filter Extractor.qualifies links).
Proof.
  induction links as [|link links IH]; [done|].
  rewrite omap_cons_eq. simpl List.filter.
  pose proof (extract_link_qualifies link) as Hq.
  destruct (Extractor.extract_link link) as [r|];
    destruct (Extractor.qualifies link); simpl; try (now rewrite IH).
  - destruct Hq as [Hq _]. discriminate Hq. eauto.
  - destruct Hq as [_ Hq]. destruct Hq as [x Hx]; done.
Qed.

(** X2.  The records of a container follow its links in document order,
    one record per link whose address passes the guard, repeated
    addresses included: the URLs of the records are the addresses of the
    links filtered by the guard, and there are as many records as
    qualifying links. *)
Theorem extract_items_in_document_order (target_div : Soup.node) :
  map Extractor.url (Extractor.extract_items target_div)
  = List.filter PyStr.match_detail_url
      (omap Soup.get_href (Soup.find_all_links target_div))
  /\ length (Extractor.extract_items target_div)
     = length (List.filter Extractor.qualifies
                 (Soup.find_all_links target_div)).
Proof.
  split; [apply extract_links_urls|apply extract_links_length].
Qed.

(** X3.  A record is in the result of a document exactly when the
    document has a container and the record was built from one of the
    container's links whose address passes the guard: its URL is that
    address, its title and publish time are those of that same link. *)
Theorem extract_membership (soup : Soup.node) (r : Extractor.article) :
  In r (Extractor.extract soup) <->
  exists target_div link href,
    Soup.find "div" (Some Extractor.container_class) soup = Some target_div
    /\ In link (Soup.find_all_links target_div)
    /\ Soup.get_href link = Some href
    /\ PyStr.match_detail_url href = true
    /\ r = Extractor.Article href (Extractor.link_title link)
                             (Extractor.link_publish_time link).
Proof.
  split.
  - intros Hin. apply extract_unfold in Hin as (target_div & Hdiv & Hin).
    apply extract_items_gate in Hin as (link & href & H).
    now exists target_div, link, href.
  - intros (target_div & link & href & Hdiv & H).
    unfold Extractor.extract. rewrite Hdiv.
    apply extract_items_gate. now exists link, href.
Qed.

Lemma extracted_url_passes (soup : Soup.node) (r : Extractor.article) :
  In r (Extractor.extract soup) ->
  PyStr.match_detail_url (Extractor.url r) = true.
Proof.
  intros Hin. apply extract_unfold in Hin as (target_div & _ & Hin).
  now apply extract_items_gate in Hin as (link & href & _ & _ & Hm & ->).
Qed.


(* ===================================================================== *)
(** ** Further properties: the store                                      *)
(* ===================================================================== *)

Lemma find_app_eq {A : Type} (f : A -> bool) (l1 l2 : list A) :
  List.find f (l1 ++ l2)
  = match List.find f l1 with
    | Some x => Some x
    | None => List.find f l2
    end.
Proof.
  induction l1 as [|x l1 IH]; simpl; [done|]. now destruct (f x).
Qed.

(** What a batch leaves under a URL: the row that was there, or else the
    row of the first item of the batch with that URL. *)
Lemma insert_batch_lookup (list_url : string)
    (items : list Extractor.article) :
  forall (t : gmap string Store.row) (u : string),
    Store.insert_batch list_url items t !! u
    = match t !! u with
      | Some r => Some r
      | None =>
          Store.row_of
            <$> Store.first_with_url u (map (pair list_url) items)
      end.
Proof.
  induction items as [|item items IH]; intros t u.
  - simpl. now destruct (t !! u).
  - rewrite insert_batch_cons, IH. unfold Store.first_with_url. simpl.
    destruct (t !! u) as [r|] eqn:Hu.
    + now rewrite (insert_or_ignore_keeps _ _ _ _ _ Hu).
    + unfold Store.insert_or_ignore.
      destruct (String.eqb (Extractor.url item) u) eqn:E.
      * apply String.eqb_eq in E. subst u. rewrite Hu.
        now rewrite lookup_insert_eq.
      * apply String.eqb_neq in E.
        destruct (t !! Extractor.url item); [now rewrite Hu|].
        now rewrite lookup_insert_ne, Hu.
Qed.

Lemma NoDup_map_unique {A B : Type} (f : A -> B) (l : list A) (x y : A) :
  List.NoDup (map f l) -> In x l -> In y l -> f x = f y -> x = y.
Proof.
  induction l as [|a l IH]; simpl; [done|].
  intros Hnd. apply List.NoDup_cons_iff in Hnd as [Hnotin Hnd].
  intros [->|Hx] [->|Hy] Heq; auto.
  - exfalso. apply Hnotin. rewrite Heq. now apply in_map.
  - exfalso. apply Hnotin. rewrite <- Heq. now apply in_map.
Qed.

(** When no URL occurs twice, the first record with a URL is the same in
    every arrangement of the records. *)
Lemma first_with_url_perm (u : string)
    (records records' : list (string * Extractor.article)) :
  List.NoDup (map (fun record => Extractor.url (snd record)) records) ->
  Permutation records records' ->
  Store.first_with_url u records = Store.first_with_url u records'.
Proof.
  intros Hnd Hperm. unfold Store.first_with_url.
  destruct (List.find _ records) as [x|] eqn:Hx;
    destruct (List.find _ records') as [y|] eqn:Hy; try done.
  - apply find_some in Hx as [Hxin Hxu]. apply find_some in Hy as [Hyin Hyu].
    apply String.eqb_eq in Hxu, Hyu. f_equal.
    apply (NoDup_map_unique _ records x y Hnd); auto.
    + eapply Permutation_in; [symmetry|]; eauto.
    + congruence.
  - apply find_some in Hx as [Hxin Hxu].
    eapply find_none in Hy; [|eapply Permutation_in; eauto].
    simpl in Hy. congruence.
  - apply find_some in Hy as [Hyin Hyu].
    eapply find_none in Hx; [|eapply Permutation_in; [symmetry|]; eauto].
    simpl in Hx. congruence.
Qed.

Lemma filter_insert_batch_events (page : Z)
    (items : list Extractor.article) :
  length (List.filter is_insert_event (batch_events page items))
  = length items.
Proof.
  unfold batch_events. simpl. rewrite List.filter_app. simpl.
  rewrite length_app, Nat.add_0_r. simpl.
  induction items as [|item items IH]; simpl; [done|]. now rewrite IH.
Qed.

Lemma in_batch_events_insert (page : Z) (items : list Extractor.article)
    (w : owner) (u : string) :
  In (Execute w (InsertOrIgnore u)) (batch_events page items) ->
  w = Page page /\ In u (map Extractor.url items).
Proof.
  unfold batch_events. simpl. intros [H|[H|H]]; try discriminate.
  apply in_app_iff in H as [H|H].
  - apply in_map_iff in H as (item & Heq & Hin). inversion Heq; subst.
    split; [done|]. now apply in_map.
  - simpl in H. destruct H as [H|[H|[H|[]]]]; discriminate.
Qed.

(* ===================================================================== *)
(** ** Further properties: the coordinator loop                           *)
(* ===================================================================== *)

Section RunFacts.

Variable str_format : string -> Z -> result string.
Variable http_get : Z -> string -> response.
Variable cfg : config.

Local Abbreviation crawl := (crawl_page str_format http_get).
Local Abbreviation step := (consume str_format http_get cfg).
Local Abbreviation items_of := (page_items str_format http_get cfg).
Local Abbreviation records_of := (page_records str_format http_get cfg).
Local Abbreviation urls := (urls_of str_format http_get cfg).
Local Abbreviation records := (records_in_order str_format http_get cfg).
Local Abbreviation batch := (page_batch str_format http_get cfg).

Lemma consume_lookup (st : run_state) (page : Z) (u : string) :
  table (step st page) !! u
  = match table st !! u with
    | Some r => Some r
    | None => Store.row_of <$> Store.first_with_url u (records_of page)
    end.
Proof.
  unfold consume, page_records.
  destruct (crawl page _ _) as [[lu items]|e].
  - transitivity (Store.insert_batch lu items (table st) !! u).
    + now destruct items.
    + apply insert_batch_lookup.
  - simpl. now destruct (table st !! u).
Qed.

Lemma run_lookup (pages : list Z) :
  forall (st : run_state) (u : string),
    table (foldl step st pages) !! u
    = match table st !! u with
      | Some r => Some r
      | None => Store.row_of <$> Store.first_with_url u (records pages)
      end.
Proof.
  induction pages as [|page pages IH]; intros st u.
  - simpl. now destruct (table st !! u).
  - simpl foldl. rewrite IH, consume_lookup.
    unfold records_in_order, Store.first_with_url. simpl flat_map.
    rewrite find_app_eq.
    destruct (table st !! u); [done|].
    now destruct (List.find _ (records_of page)).
Qed.

Lemma page_records_urls (page : Z) :
  map (fun record => Extractor.url (snd record)) (records_of page)
  = map Extractor.url (items_of page).
Proof.
  unfold page_records, page_items.
  destruct (crawl page _ _) as [[lu items]|e]; [|done].
  rewrite map_map. reflexivity.
Qed.

Lemma records_in_order_urls (pages : list Z) :
  map (fun record => Extractor.url (snd record)) (records pages)
  = urls pages.
Proof.
  induction pages as [|page pages IH]; [done|].
  unfold records_in_order, urls_of in *. simpl.
  now rewrite map_app, IH, page_records_urls.
Qed.

Lemma records_in_order_perm (pages pages' : list Z) :
  Permutation pages pages' -> Permutation (records pages) (records pages').
Proof.
  induction 1 as [|page l l' _ IH|p q l|l l' l'' _ IH1 _ IH2]; simpl.
  - constructor.
  - now apply Permutation_app_head.
  - unfold records_in_order. simpl. rewrite !app_assoc.
    apply Permutation_app_tail, Permutation_app_comm.
  - now transitivity (records l').
Qed.

Lemma page_items_pass (page : Z) (item : Extractor.article) :
  In item (items_of page) ->
  PyStr.match_detail_url (Extractor.url item) = true.
Proof.
  unfold page_items, crawl_page.
  destruct (resolve_list_url _ _ _ _) as [lu|e]; [|intros []].
  destruct (http_get page lu) as [e| |soup]; try (intros []).
  apply extracted_url_passes.
Qed.

Lemma urls_pass (pages : list Z) (u : string) :
  In u (urls pages) -> PyStr.match_detail_url u = true.
Proof.
  unfold urls_of. rewrite in_flat_map. intros (page & _ & Hu).
  apply in_map_iff in Hu as (item & <- & Hitem).
  now apply (page_items_pass page).
Qed.

Lemma page_batch_inserts (page : Z) :
  length (List.filter is_insert_event (batch page))
  = length (items_of page).
Proof.
  unfold page_batch. destruct (items_of page) as [|item items]; [done|].
  apply filter_insert_batch_events.
Qed.

Lemma run_inserts (pages : list Z) :
  length (List.filter is_insert_event (flat_map batch pages))
  = length (urls pages).
Proof.
  induction pages as [|page pages IH]; [done|].
  unfold urls_of in *. simpl.
  now rewrite List.filter_app, !length_app, IH, page_batch_inserts,
    length_map.
Qed.

Lemma run_insert_events (pages : list Z) (w : owner) (u : string) :
  In (Execute w (InsertOrIgnore u)) (flat_map batch pages) ->
  exists page, In page pages /\ w = Page page
               /\ In u (map Extractor.url (items_of page)).
Proof.
  rewrite in_flat_map. intros (page & Hpage & Hin).
  exists page. split; [done|].
  unfold page_batch in Hin.
  destruct (items_of page) as [|item items]; [destruct Hin|].
  now apply in_batch_events_insert in Hin.
Qed.

Lemma consume_no_records (st : run_state) (page : Z) :
  items_of page = [] -> step st page = st.
Proof.
  unfold page_items, consume.
  destruct (crawl page _ _) as [[lu items]|e]; [|done].
  intros ->. simpl. rewrite Z.add_0_r. now destruct st.
Qed.

Lemma run_no_records (pages : list Z) :
  forall st,
    (forall page, In page pages -> items_of page = []) ->
    foldl step st pages = st.
Proof.
  induction pages as [|page pages IH]; intros st H; [done|].
  simpl. rewrite consume_no_records by (apply H; now left).
  apply IH. intros p Hp. apply H. now right.
Qed.

End RunFacts.

Section RunProperties.

Variable str_format : string -> Z -> result string.
Variable http_get : Z -> string -> response.

(** X5.  [crawl_page] raises only out of the template formatting of line
    56: it raises an exception exactly when the override does not apply
    (the page is not 1, or the override is empty) and formatting the
    template with the page number raises that exception.  Page 1 with an
    override never raises, whatever the template. *)
Theorem crawl_page_raises_iff (page : Z) (base first : string) (e : exn) :
  crawl_page str_format http_get page base first = Raise e
  <-> (page <> 1 \/ first = EmptyString) /\ str_format base page = Raise e.
Proof.
  unfold crawl_page, resolve_list_url.
  destruct (page =? 1) eqn:Hp; [apply Z.eqb_eq in Hp|apply Z.eqb_neq in Hp].
  - destruct first as [|c first]; simpl.
    + destruct (str_format base page) as [lu|e'].
      * destruct (http_get page lu); split; try done; now intros [_ H].
      * split; [intros H; inversion H; auto|intros [_ H]; congruence].
    + destruct (http_get page (String c first)); split; try done;
        intros [[H|H] _]; done.
  - simpl. destruct (str_format base page) as [lu|e'].
    + destruct (http_get page lu); split; try done; now intros [_ H].
    + split; [intros H; inversion H; auto|intros [_ H]; congruence].
Qed.

(** X6.  First consumed, first stored.  After a run, the row under a URL
    is the row the table held before the run if there was one, and else
    the row of the first record with that URL in the order in which
    [as_completed] hands the pages' results to the loop of line 191
    (and, within a page, in document order), stored with that page's
    list URL; a URL no page extracted and the table did not hold has no
    row.  The order [as_completed] yields need not be the order in which
    the fetches finished. *)
Theorem first_consumed_wins (cfg : config) (sched : list nat)
    (db : option (gmap string Store.row)) (u : string) :
  0 < maxWorkers cfg ->
  final_table (main str_format http_get cfg sched db) !! u
  = match Store.ensure_schema db !! u with
    | Some r => Some r
    | None =>
        Store.row_of
          <$> Store.first_with_url u
                (records_in_order str_format http_get cfg
                   (as_completed sched (submitted cfg)))
    end.
Proof.
  intros Hw. rewrite main_completes by done. simpl. unfold coordinator.
  apply (run_lookup _ _ _ _ (RunState _ 0 [])).
Qed.

(** X7.  A run never changes or removes a row that was in the table
    before it: not its title, not its publish time, not its list URL.
    This holds for every completion order and network behaviour, and
    also when the run stops at the pool. *)
Theorem existing_rows_kept (cfg : config) (sched : list nat)
    (db : option (gmap string Store.row)) (u : string) (r : Store.row) :
  Store.ensure_schema db !! u = Some r ->
  final_table (main str_format http_get cfg sched db) !! u = Some r.
Proof.
  intros Hu. unfold main. destruct (maxWorkers cfg <=? 0); simpl; [done|].
  unfold coordinator. now apply run_keeps.
Qed.

(** X8.  The URLs stored after a run are exactly those stored before it
    together with those extracted over the page range, whatever the
    completion order; every URL the run added passes the guard of line
    89. *)
Theorem stored_urls_after_run (cfg : config) (sched : list nat)
    (db : option (gmap string Store.row)) (u : string) :
  0 < maxWorkers cfg ->
  (is_Some (final_table (main str_format http_get cfg sched db) !! u)
   <-> is_Some (Store.ensure_schema db !! u)
       \/ In u (all_urls str_format http_get cfg))
  /\ (is_Some (final_table (main str_format http_get cfg sched db) !! u) ->
      Store.ensure_schema db !! u = None ->
      PyStr.match_detail_url u = true).
Proof.
  intros Hw. rewrite main_completes by done. simpl. unfold coordinator.
  assert (Hiff :
    is_Some (table (foldl (consume str_format http_get cfg)
                          (RunState (Store.ensure_schema db) 0 [])
                          (as_completed sched (submitted cfg))) !! u)
    <-> is_Some (Store.ensure_schema db !! u)
        \/ In u (all_urls str_format http_get cfg)).
  { rewrite run_dom. simpl. unfold all_urls.
    split; (intros [H|H]; [now left|right]);
      (eapply Permutation_in; [|exact H]); apply urls_of_perm;
      [|symmetry]; apply as_completed_perm. }
  split; [exact Hiff|].
  intros Hs Hnone. apply Hiff in Hs as [Hs|Hs].
  - rewrite Hnone in Hs. by destruct Hs.
  - now apply (urls_pass str_format http_get cfg (submitted cfg)).
Qed.

Lemma run_dom_perm (cfg : config) (sched1 sched2 : list nat)
    (t : gmap string Store.row) :
  dom (table (coordinator str_format http_get cfg sched1 t))
  = dom (table (coordinator str_format http_get cfg sched2 t)).
Proof.
  apply set_eq. intros u. rewrite !elem_of_dom. unfold coordinator.
  rewrite !run_dom. simpl.
  split; (intros [H|H]; [now left|right]);
    (eapply Permutation_in; [|exact H]); apply urls_of_perm;
    (etransitivity; [apply as_completed_perm|]);
    symmetry; apply as_completed_perm.
Qed.

(** X9.  The printed summary does not depend on the order in which the
    pages complete: two runs on the same database, configuration and
    network answers print the same page count, the same total of
    extracted records and the same count of stored URLs (or both stop at
    the pool). *)
Theorem summary_schedule_independent (cfg : config)
    (sched1 sched2 : list nat) (db : option (gmap string Store.row)) :
  printed (main str_format http_get cfg sched1 db)
  = printed (main str_format http_get cfg sched2 db).
Proof.
  unfold main. destruct (maxWorkers cfg <=? 0); simpl; [done|].
  do 2 f_equal.
  - unfold coordinator. rewrite !run_total. simpl. do 2 f_equal.
    apply Permutation_length, urls_of_perm.
    etransitivity; [apply as_completed_perm|].
    symmetry. apply as_completed_perm.
  - unfold Store.count. f_equal.
    rewrite <- !size_dom. f_equal. apply run_dom_perm.
Qed.

(** X10.  When no URL is extracted twice over the page range, the
    columns the program writes do not depend on the order in which the
    results are consumed: two such runs leave the same URLs stored, each
    with the same title, publish time and list URL.  (The [id] and
    [crawled_at] columns, which the engine fills in at insertion, are not
    part of [Store.row] and are not covered.) *)
Theorem written_columns_schedule_independent (cfg : config)
    (sched1 sched2 : list nat) (db : option (gmap string Store.row)) :
  List.NoDup (all_urls str_format http_get cfg) ->
  final_table (main str_format http_get cfg sched1 db)
  = final_table (main str_format http_get cfg sched2 db).
Proof.
  intros Hnd. unfold main. destruct (maxWorkers cfg <=? 0); simpl; [done|].
  apply map_eq. intros u. unfold coordinator. rewrite !run_lookup. simpl.
  destruct (Store.ensure_schema db !! u); [done|]. f_equal.
  apply first_with_url_perm.
  - rewrite records_in_order_urls.
    eapply Permutation_NoDup; [|exact Hnd].
    apply urls_of_perm. symmetry. apply as_completed_perm.
  - apply records_in_order_perm.
    etransitivity; [apply as_completed_perm|].
    symmetry. apply as_completed_perm.
Qed.

(** X11.  One insert per extracted record.  The number of
    [INSERT OR IGNORE] statements a run executes is the total of
    extracted records it prints; each of them is executed on the
    connection of a submitted page, for a URL that passes the guard of
    line 89. *)
Theorem one_insert_per_record (cfg : config) (sched : list nat)
    (db : option (gmap string Store.row)) :
  0 < maxWorkers cfg ->
  exists s,
    printed (main str_format http_get cfg sched db) = Ok s
    /\ Z.of_nat (length (List.filter is_insert_event
                           (events (main str_format http_get cfg sched db))))
       = extracted s
    /\ (forall w u,
          In (Execute w (InsertOrIgnore u))
             (events (main str_format http_get cfg sched db)) ->
          (exists page, w = Page page /\ In page (submitted cfg))
          /\ PyStr.match_detail_url u = true).
Proof.
  intros Hw. rewrite main_completes by done. simpl.
  eexists. split; [reflexivity|]. simpl. unfold coordinator.
  rewrite run_trace, run_total. simpl. split.
  - rewrite !List.filter_app, !length_app, run_inserts. simpl. lia.
  - intros w u [H|[H|[H|[H|H]]]]; try discriminate.
    apply in_app_iff in H as [H|H].
    + apply run_insert_events in H as (page & Hpage & -> & Hu). split.
      * exists page. split; [done|].
        eapply Permutation_in; [apply as_completed_perm|done].
      * apply in_map_iff in Hu as (item & <- & Hitem).
        now apply (page_items_pass str_format http_get cfg page).
    + simpl in H. destruct H as [H|[H|[H|[]]]]; discriminate.
Qed.

(** X12.  A run in which no submitted page yields a record (requests
    failed, containers missing, no qualifying link, or the template
    formatting raised) leaves the table as it was, never takes the lock,
    opens no page connection, and prints the page count, zero records and
    the old count. *)
Theorem run_without_records (cfg : config) (sched : list nat)
    (db : option (gmap string Store.row)) :
  0 < maxWorkers cfg ->
  (forall page, In page (submitted cfg) ->
                page_items str_format http_get cfg page = []) ->
  main str_format http_get cfg sched db
  = Outcome (Store.ensure_schema db)
            (setup_events ++ report_events)
            (Ok (Summary (endPage cfg - startPage cfg + 1) 0
                         (Store.count (Store.ensure_schema db)))).
Proof.
  intros Hw Hnone. rewrite main_completes by done. simpl.
  unfold coordinator. rewrite run_no_records; [done|].
  intros page Hpage. apply Hnone.
  eapply Permutation_in; [apply as_completed_perm|done].
Qed.

(** X13.  An inverted range ([endPage] below [startPage]) submits no
    page: the run only sets up the schema and counts, and the page count
    it prints is zero or negative. *)
Theorem inverted_range_run (cfg : config) (sched : list nat)
    (db : option (gmap string Store.row)) :
  0 < maxWorkers cfg ->
  endPage cfg < startPage cfg ->
  submitted cfg = []
  /\ endPage cfg - startPage cfg + 1 <= 0
  /\ main str_format http_get cfg sched db
     = Outcome (Store.ensure_schema db)
               (setup_events ++ report_events)
               (Ok (Summary (endPage cfg - startPage cfg + 1) 0
                            (Store.count (Store.ensure_schema db)))).
Proof.
  intros Hw Hinv.
  assert (Hsub : submitted cfg = []).
  { unfold submitted, py_range.
    replace (Z.to_nat (endPage cfg + 1 - startPage cfg)) with O by lia.
    reflexivity. }
  split; [exact Hsub|]. split; [lia|].
  rewrite main_completes by done. simpl. unfold coordinator.
  now rewrite Hsub.
Qed.

End RunProperties.

(* ===================================================================== *)
(** ** Further properties: load_config                                    *)
(* ===================================================================== *)

Lemma setdefault_lookup (key : string) (v : Loader.value)
    (d : gmap string Loader.value) (k : string) :
  Loader.setdefault key v d !! k
  = match d !! k with
    | Some x => Some x
    | None => if decide (k = key) then Some v else None
    end.
Proof.
  unfold Loader.setdefault. destruct (d !! key) as [x|] eqn:Hkey.
  - destruct (d !! k) eqn:Hk; [done|].
    case_decide; [congruence|done].
  - case_decide as Heq.
    + subst k. now rewrite lookup_insert_eq, Hkey.
    + rewrite lookup_insert_ne by congruence. now destruct (d !! k).
Qed.

Lemma with_defaults_lookup (d : gmap string Loader.value) (k : string) :
  Loader.with_defaults d !! k
  = match d !! k with
    | Some x => Some x
    | None =>
        if decide (k = "firstPageUrl") then Some (Loader.VStr EmptyString)
        else if decide (k = "maxWorkers") then Some (Loader.VInt 10)
        else None
    end.
Proof.
  unfold Loader.with_defaults. rewrite !setdefault_lookup.
  destruct (d !! k); [done|].
  repeat case_decide; congruence.
Qed.

Lemma check_required_map_none (d : gmap string Loader.value)
    (keys : list string) :
  Loader.check_required (Loader.DMap d) keys = None
  <-> List.Forall (fun k => is_Some (d !! k)) keys.
Proof.
  induction keys as [|key keys IH]; simpl.
  - split; [constructor|done].
  - case_bool_decide as Hk.
    + rewrite IH. split; [now constructor|].
      intros H. now inversion H.
    + split; [done|]. intros H. now inversion H.
Qed.

Lemma check_required_map_some (d : gmap string Loader.value)
    (keys : list string) (e : Loader.error) :
  Loader.check_required (Loader.DMap d) keys = Some e
  <-> exists before k after,
        keys = before ++ k :: after
        /\ e = Loader.MissingKey k
        /\ d !! k = None
        /\ List.Forall (fun k' => is_Some (d !! k')) before.
Proof.
  revert e. induction keys as [|key keys IH]; intros e; simpl.
  - split; [done|]. intros (before & k & after & H & _).
    now destruct before.
  - case_bool_decide as Hk.
    + rewrite IH. split.
      * intros (before & k & after & -> & -> & Hnone & Hall).
        exists (key :: before), k, after. repeat split; auto.
      * intros (before & k & after & Heq & -> & Hnone & Hall).
        destruct before as [|b before]; simpl in Heq; inversion Heq; subst.
        -- rewrite Hnone in Hk. by destruct Hk.
        -- inversion Hall; subst. now exists before, k, after.
    + apply eq_None_not_Some in Hk. split.
      * intros H. inversion H; subst.
        exists [], key, keys. repeat split; auto.
      * intros (before & k & after & Heq & -> & Hnone & Hall).
        destruct before as [|b before]; simpl in Heq; inversion Heq; subst;
          [done|].
        inversion Hall as [|? ? Hb]; subst. rewrite Hk in Hb.
        by destruct Hb.
Qed.

Lemma check_required_errors (doc : Loader.document) (keys : list string)
    (e : Loader.error) :
  Loader.check_required doc keys = Some e ->
  e = Loader.TypeError \/ exists k, e = Loader.MissingKey k /\ In k keys.
Proof.
  induction keys as [|key keys IH]; simpl; [done|].
  destruct (Loader.has_key doc key) as [[|]|].
  - intros H. destruct (IH H) as [->|(k & -> & Hk)]; [now left|].
    right. eauto.
  - intros H. inversion H. right. eauto.
  - intros H. inversion H. now left.
Qed.

Lemma validate_map (d : gmap string Loader.value)
    (cfg : gmap string Loader.value) :
  Loader.validate (Loader.DMap d) = Loader.Loaded cfg
  <-> List.Forall (fun k => is_Some (d !! k)) Loader.required_keys
      /\ cfg = Loader.with_defaults d.
Proof.
  unfold Loader.validate. rewrite <- check_required_map_none.
  destruct (Loader.check_required _ _); split; try done.
  - now intros [H _].
  - intros H. inversion H. done.
  - intros [_ ->]. done.
Qed.

Lemma validate_value (v : Loader.value) :
  exists e, Loader.validate (Loader.DValue v) = Loader.Failed e.
Proof. unfold Loader.validate. destruct (Loader.check_required _ _); eauto. Qed.

(** X14.  [load_config] returns a configuration exactly when the file
    exists, parses, is a mapping, and has the four required keys; what it
    returns is then that mapping with the two defaults filled in.  In
    every other case it raises. *)
Theorem load_config_succeeds_iff (read : string -> Loader.file)
    (config_path : string) (cfg : gmap string Loader.value) :
  snd (Loader.load_config read config_path) = Loader.Loaded cfg
  <-> exists d,
        read config_path = Loader.Parsed (Loader.DMap d)
        /\ List.Forall (fun k => is_Some (d !! k)) Loader.required_keys
        /\ cfg = Loader.with_defaults d.
Proof.
  unfold Loader.load_config.
  destruct (read config_path) as [| | |[d|v]]; simpl.
  1-3: split; [done|intros (d & H & _); discriminate].
  - destruct (Loader.validate (Loader.DMap d)) as [cfg'|e] eqn:Hv; simpl.
    + apply validate_map in Hv as [Hall ->]. split.
      * intros H. inversion H. eauto.
      * intros (d' & Hd & _ & ->). now inversion Hd.
    + split; [done|]. intros (d' & Hd & Hall & ->). inversion Hd; subst.
      assert (Loader.validate (Loader.DMap d')
              = Loader.Loaded (Loader.with_defaults d'))
        by now apply validate_map.
      congruence.
  - destruct (validate_value v) as [e ->]. simpl.
    split; [done|intros (d & H & _); discriminate].
Qed.

(** X15.  A loaded configuration keeps every entry of the file as it is,
    an explicit null included, adds nothing but [firstPageUrl] and
    [maxWorkers], gives these the defaults of the empty string and 10
    when the file has no such key, and so holds all six keys [main]
    reads. *)
Theorem loaded_config_shape (read : string -> Loader.file)
    (config_path : string) (d cfg : gmap string Loader.value) :
  read config_path = Loader.Parsed (Loader.DMap d) ->
  snd (Loader.load_config read config_path) = Loader.Loaded cfg ->
  (forall k v, d !! k = Some v -> cfg !! k = Some v)
  /\ (forall k, is_Some (cfg !! k)
                <-> is_Some (d !! k) \/ k = "firstPageUrl" \/ k = "maxWorkers")
  /\ (d !! "firstPageUrl" = None ->
      cfg !! "firstPageUrl" = Some (Loader.VStr EmptyString))
  /\ (d !! "maxWorkers" = None ->
      cfg !! "maxWorkers" = Some (Loader.VInt 10))
  /\ List.Forall (fun k => is_Some (cfg !! k)) Loader.main_keys.
Proof.
  intros Hread Hload. unfold Loader.load_config in Hload.
  rewrite Hread in Hload.
  destruct (Loader.validate (Loader.DMap d)) as [cfg'|e] eqn:Hv;
    simpl in Hload; [|discriminate].
  inversion Hload; subst cfg'. apply validate_map in Hv as [Hall ->].
  split; [|split; [|split; [|split]]].
  - intros k v Hk. now rewrite with_defaults_lookup, Hk.
  - intros k. rewrite with_defaults_lookup.
    destruct (d !! k) eqn:Hk.
    + split; eauto.
    + destruct (decide (k = "firstPageUrl")) as [->|Hf]; [split; eauto|].
      destruct (decide (k = "maxWorkers")) as [->|Hm]; [split; eauto|].
      split; [intros [x Hx]; done|intros [[x Hx]|[Hx|Hx]]; done].
  - intros Hk. now rewrite with_defaults_lookup, Hk.
  - intros Hk. now rewrite with_defaults_lookup, Hk.
  - assert (Hkeep : forall k, is_Some (d !! k) ->
                              is_Some (Loader.with_defaults d !! k)).
    { intros k [v Hk]. rewrite with_defaults_lookup, Hk. eauto. }
    unfold Loader.required_keys in Hall.
    inversion Hall as [|? ? H1 Hall1]; subst.
    inversion Hall1 as [|? ? H2 Hall2]; subst.
    inversion Hall2 as [|? ? H3 Hall3]; subst.
    inversion Hall3 as [|? ? H4 _]; subst.
    assert (Hdef : forall k, k = "firstPageUrl" \/ k = "maxWorkers" ->
                             is_Some (Loader.with_defaults d !! k)).
    { intros k Hk. rewrite with_defaults_lookup.
      destruct (d !! k); [eauto|].
      destruct Hk as [->| ->]; simpl; eauto. }
    unfold Loader.main_keys. repeat constructor; auto.
Qed.

(** X16.  On a mapping that lacks required keys, [load_config] raises
    for the first one missing in the order [dbPath], [baseUrl],
    [startPage], [endPage]: the key named in the error is absent from the
    file and every required key before it is present. *)
Theorem missing_key_is_first (read : string -> Loader.file)
    (config_path : string) (d : gmap string Loader.value) (k : string) :
  read config_path = Loader.Parsed (Loader.DMap d) ->
  (snd (Loader.load_config read config_path)
     = Loader.Failed (Loader.MissingKey k)
   <-> exists before after,
         Loader.required_keys = before ++ k :: after
         /\ d !! k = None
         /\ List.Forall (fun k' => is_Some (d !! k')) before).
Proof.
  intros Hread. unfold Loader.load_config, Loader.validate.
  rewrite Hread.
  destruct (Loader.check_required (Loader.DMap d) Loader.required_keys)
    as [e|] eqn:Hc; simpl.
  - apply check_required_map_some in Hc
      as (before & k' & after & Heq & -> & Hnone & Hall).
    split.
    + intros H. inversion H; subst. eauto.
    + intros (before' & after' & Heq' & Hnone' & Hall'). do 2 f_equal.
      assert (Hc' : Loader.check_required (Loader.DMap d)
                      Loader.required_keys = Some (Loader.MissingKey k)).
      { apply check_required_map_some.
        exists before', k, after'. auto. }
      assert (Hc'' : Loader.check_required (Loader.DMap d)
                       Loader.required_keys = Some (Loader.MissingKey k')).
      { apply check_required_map_some.
        exists before, k', after. auto. }
      congruence.
  - split; [done|].
    intros (before & after & Heq & Hnone & Hall).
    assert (Hc' : Loader.check_required (Loader.DMap d)
                    Loader.required_keys = Some (Loader.MissingKey k)).
    { apply check_required_map_some. exists before, k, after. auto. }
    congruence.
Qed.

(** X17.  A successful load prints nothing.  A failed load prints
    exactly one diagnostic and re-raises: the not-found message exactly
    for a missing file, the parse message exactly for malformed YAML, and
    the general message for everything else (unreadable file, missing
    key, a document that is not a mapping). *)
Theorem load_failure_reported (read : string -> Loader.file)
    (config_path : string) :
  match Loader.load_config read config_path with
  | (log, Loader.Loaded _) => log = []
  | (log, Loader.Failed e) =>
      exists m,
        log = [m]
        /\ (m = Loader.NotFoundMessage <-> e = Loader.FileNotFoundError)
        /\ (m = Loader.ParseMessage <-> e = Loader.YAMLError)
        /\ (e = Loader.FileNotFoundError
            <-> read config_path = Loader.NoSuchFile)
        /\ (e = Loader.YAMLError <-> read config_path = Loader.Malformed)
  end.
Proof.
  unfold Loader.load_config.
  destruct (read config_path) as [| | |doc] eqn:Hread.
  1-3: eexists; repeat split; done.
  destruct (Loader.validate doc) as [cfg|e] eqn:Hv; [done|].
  assert (He : e <> Loader.FileNotFoundError /\ e <> Loader.YAMLError).
  { unfold Loader.validate in Hv.
    destruct (Loader.check_required doc Loader.required_keys)
      as [e'|] eqn:Hc.
    - inversion Hv; subst.
      apply check_required_errors in Hc as [->|(k & -> & _)]; done.
    - destruct doc; inversion Hv; done. }
  destruct He as [He1 He2].
  exists Loader.LoadMessage. repeat split; done.
Qed.

(** X18.  A document that is not a mapping never yields a
    configuration, and the load prints the general message: null, a
    boolean or a number raises [TypeError] at the first membership test;
    a string or a sequence raises either the missing-key error for one
    of the required keys or, past the membership tests,
    [AttributeError] at [setdefault]. *)
Theorem non_mapping_never_loads (read : string -> Loader.file)
    (config_path : string) (v : Loader.value) :
  read config_path = Loader.Parsed (Loader.DValue v) ->
  exists e,
    Loader.load_config read config_path
    = ([Loader.LoadMessage], Loader.Failed e)
    /\ match v with
       | Loader.VNone | Loader.VBool _ | Loader.VInt _ =>
           e = Loader.TypeError
       | Loader.VStr _ | Loader.VSeq _ =>
           e = Loader.AttributeError
           \/ exists k, e = Loader.MissingKey k
                        /\ In k Loader.required_keys
       end.
Proof.
  intros Hread. unfold Loader.load_config. rewrite Hread.
  unfold Loader.validate.
  destruct (Loader.check_required (Loader.DValue v) Loader.required_keys)
    as [e|] eqn:Hc.
  - exists e. split; [done|].
    destruct v; try (simpl in Hc; now inversion Hc);
      (destruct (check_required_errors _ _ _ Hc) as [->|H]; [|now right]);
      simpl in *.
    + exfalso. revert Hc. simpl.
      repeat (destruct (PyStr.contains _ _); try discriminate).
    + exfalso. revert Hc. simpl.
      repeat (destruct (existsb _ _); try discriminate).
  - exists Loader.AttributeError. split; [done|].
    destruct v; try (simpl in Hc; discriminate); now left.
Qed.

(* ===================================================================== *)
(** ** The further properties at concrete inputs                          *)
(* ===================================================================== *)

(** The stripped title of the first sample link. *)
Lemma extracted_titles_stripped_witness :
  In (Extractor.Article "https://news.ruc.edu.cn/101.html" "Title A"
                        "2024-01-15")
     (Extractor.extract Sample.page_one)
  /\ PyStr.strip "Title A" = "Title A".
Proof.
  split; [left; reflexivity|].
  apply (extracted_titles_stripped Sample.page_one
           (Extractor.Article "https://news.ruc.edu.cn/101.html" "Title A"
                              "2024-01-15")).
  left. reflexivity.
Defined.

(** The record of the bare sample link is in the result of its page,
    and so is built from a link of the container. *)
Lemma extract_membership_witness :
  exists target_div link href,
    Soup.find "div" (Some Extractor.container_class) Sample.page_one
      = Some target_div
    /\ In link (Soup.find_all_links target_div)
    /\ Soup.get_href link = Some href
    /\ PyStr.match_detail_url href = true
    /\ Extractor.Article "https://news.ruc.edu.cn/102.html" EmptyString
                         "2024.01.16"
       = Extractor.Article href (Extractor.link_title link)
                           (Extractor.link_publish_time link).
Proof.
  apply (extract_membership Sample.page_one).
  right. left. reflexivity.
Defined.


(** A template with an unnamed field makes page 2 raise, and page 1 is
    saved by the override. *)
Lemma crawl_page_raises_iff_witness :
  crawl_page Sample.simple_format Sample.net_1_3 2 "list_{}.html"
    "https://news.ruc.edu.cn/index.html"
  = Raise IndexError
  /\ crawl_page Sample.simple_format Sample.net_1_3 1 "list_{}.html"
       "https://news.ruc.edu.cn/index.html"
     <> Raise IndexError.
Proof.
  split.
  - apply (crawl_page_raises_iff Sample.simple_format Sample.net_1_3 2
             "list_{}.html" "https://news.ruc.edu.cn/index.html" IndexError).
    split; [left; discriminate|reflexivity].
  - intros H.
    apply (crawl_page_raises_iff Sample.simple_format Sample.net_1_3 1
             "list_{}.html" "https://news.ruc.edu.cn/index.html" IndexError)
      in H as [[H|H] _]; [now apply H|discriminate].
Defined.

(** With the same link on every page and the result of page 3 handed
    over first, the stored row carries the list URL of page 3. *)
Lemma first_consumed_wins_witness :
  0 < maxWorkers Sample.cfg_1_3
  /\ as_completed [2; 0]%nat (submitted Sample.cfg_1_3) = [3; 1; 2]
  /\ final_table (main Sample.simple_format Sample.net_dup Sample.cfg_1_3
                       [2; 0]%nat None)
     !! "https://news.ruc.edu.cn/101.html"
     = Some (Store.Row "Title A" "2024-01-15"
                       "https://news.ruc.edu.cn/list_3.html").
Proof.
  split; [reflexivity|]. split; [reflexivity|].
  rewrite (first_consumed_wins Sample.simple_format Sample.net_dup
             Sample.cfg_1_3 [2; 0]%nat None
             "https://news.ruc.edu.cn/101.html" eq_refl).
  reflexivity.
Defined.

(** The old row of the sample table survives a run that extracts its
    URL again with another title. *)
Lemma existing_rows_kept_witness :
  Sample.table_one !! "https://news.ruc.edu.cn/101.html"
  = Some (Store.Row "Old title" "2023-12-31"
                    "https://news.ruc.edu.cn/old.html")
  /\ final_table (main Sample.simple_format Sample.net_1_3 Sample.cfg_1_3
                       [2; 0]%nat (Some Sample.table_one))
     !! "https://news.ruc.edu.cn/101.html"
     = Some (Store.Row "Old title" "2023-12-31"
                       "https://news.ruc.edu.cn/old.html").
Proof.
  split; [reflexivity|].
  apply (existing_rows_kept Sample.simple_format Sample.net_1_3
           Sample.cfg_1_3 [2; 0]%nat (Some Sample.table_one)).
  reflexivity.
Defined.

(** The new address of page 1 is stored after the sample run. *)
Lemma stored_urls_after_run_witness :
  0 < maxWorkers Sample.cfg_1_3
  /\ is_Some (final_table
                (main Sample.simple_format Sample.net_1_3 Sample.cfg_1_3
                      [2; 0]%nat (Some Sample.table_one))
              !! "https://news.ruc.edu.cn/102.html")
  /\ PyStr.match_detail_url "https://news.ruc.edu.cn/102.html" = true.
Proof.
  split; [reflexivity|].
  destruct (stored_urls_after_run Sample.simple_format Sample.net_1_3
              Sample.cfg_1_3 [2; 0]%nat (Some Sample.table_one)
              "https://news.ruc.edu.cn/102.html" eq_refl) as [Hiff Hgate].
  assert (Hs : is_Some
                 (final_table
                    (main Sample.simple_format Sample.net_1_3 Sample.cfg_1_3
                          [2; 0]%nat (Some Sample.table_one))
                  !! "https://news.ruc.edu.cn/102.html")).
  { apply Hiff. right. right. left. reflexivity. }
  split; [exact Hs|]. apply Hgate; [exact Hs|reflexivity].
Defined.

(** The sample range has no repeated URL, so two orders leave the same
    URLs with the same written columns. *)
Lemma written_columns_schedule_independent_witness :
  List.NoDup (all_urls Sample.simple_format Sample.net_1_3 Sample.cfg_1_3)
  /\ final_table (main Sample.simple_format Sample.net_1_3 Sample.cfg_1_3
                       [2; 0]%nat None)
     = final_table (main Sample.simple_format Sample.net_1_3 Sample.cfg_1_3
                         [0; 1]%nat None).
Proof.
  assert (Hnd : List.NoDup
                  (all_urls Sample.simple_format Sample.net_1_3
                            Sample.cfg_1_3)).
  { apply NoDup_ListNoDup.
    apply (bool_decide_unpack _). vm_compute. exact I. }
  split; [exact Hnd|].
  apply (written_columns_schedule_independent Sample.simple_format Sample.net_1_3
           Sample.cfg_1_3 [2; 0]%nat [0; 1]%nat None Hnd).
Defined.

(** The sample run executes two inserts and prints two records. *)
Lemma one_insert_per_record_witness :
  0 < maxWorkers Sample.cfg_1_3
  /\ exists s,
       printed (main Sample.simple_format Sample.net_1_3 Sample.cfg_1_3
                     [2; 0]%nat (Some Sample.table_one)) = Ok s
       /\ Z.of_nat
            (length
               (List.filter is_insert_event
                  (events (main Sample.simple_format Sample.net_1_3
                                Sample.cfg_1_3 [2; 0]%nat
                                (Some Sample.table_one)))))
          = extracted s.
Proof.
  split; [reflexivity|].
  destruct (one_insert_per_record Sample.simple_format Sample.net_1_3
              Sample.cfg_1_3 [2; 0]%nat (Some Sample.table_one) eq_refl)
    as (s & Hs & Hn & _).
  exists s. split; [exact Hs|exact Hn].
Defined.

(** With the network down the sample run leaves the sample table alone. *)
Lemma run_without_records_witness :
  0 < maxWorkers Sample.cfg_1_3
  /\ main Sample.simple_format Sample.net_down Sample.cfg_1_3 [1]%nat
          (Some Sample.table_one)
     = Outcome Sample.table_one (setup_events ++ report_events)
               (Ok (Summary 3 0 1)).
Proof.
  split; [reflexivity|].
  apply (run_without_records Sample.simple_format Sample.net_down
           Sample.cfg_1_3 [1]%nat (Some Sample.table_one) eq_refl).
  intros page [<-|[<-|[<-|[]]]]; reflexivity.
Defined.

(** Pages 5 down to 2: nothing is submitted and the page count printed
    is -2. *)
Lemma inverted_range_run_witness :
  printed (main Sample.simple_format Sample.net_1_3
                (Config "articles.duckdb" "list_{page}.html" 5 2
                        EmptyString 4)
                [] None)
  = Ok (Summary (-2) 0 0).
Proof.
  destruct (inverted_range_run Sample.simple_format Sample.net_1_3
              (Config "articles.duckdb" "list_{page}.html" 5 2 EmptyString 4)
              [] None eq_refl eq_refl) as (_ & _ & ->).
  reflexivity.
Defined.

(** The complete sample file loads with both defaults. *)
Lemma load_config_succeeds_iff_witness :
  snd (Loader.load_config SampleConfig.disk "config.yaml")
  = Loader.Loaded (Loader.with_defaults SampleConfig.complete)
  /\ Loader.with_defaults SampleConfig.complete !! "maxWorkers"
     = Some (Loader.VInt 10).
Proof.
  split; [|reflexivity].
  apply (load_config_succeeds_iff SampleConfig.disk "config.yaml").
  exists SampleConfig.complete. split; [reflexivity|].
  split; [|reflexivity].
  repeat constructor; vm_compute; eauto.
Defined.

Lemma loaded_config_shape_witness :
  Loader.with_defaults SampleConfig.complete !! "firstPageUrl"
  = Some (Loader.VStr EmptyString)
  /\ List.Forall
       (fun k => is_Some (Loader.with_defaults SampleConfig.complete !! k))
       Loader.main_keys.
Proof.
  destruct (loaded_config_shape SampleConfig.disk "config.yaml"
              SampleConfig.complete
              (Loader.with_defaults SampleConfig.complete)
              eq_refl eq_refl) as (_ & _ & Hf & _ & Hkeys).
  split; [apply Hf; reflexivity|exact Hkeys].
Defined.

(** The partial sample file lacks [endPage] only. *)
Lemma missing_key_is_first_witness :
  snd (Loader.load_config SampleConfig.disk "partial.yaml")
  = Loader.Failed (Loader.MissingKey "endPage").
Proof.
  apply (missing_key_is_first SampleConfig.disk "partial.yaml"
           SampleConfig.partial "endPage" eq_refl).
  exists ["dbPath"; "baseUrl"; "startPage"], [].
  split; [reflexivity|]. split; [reflexivity|].
  repeat constructor; vm_compute; eauto.
Defined.

(** A missing file: one not-found message and [FileNotFoundError]. *)
Lemma load_failure_reported_witness :
  Loader.load_config SampleConfig.disk "nowhere.yaml"
  = ([Loader.NotFoundMessage], Loader.Failed Loader.FileNotFoundError).
Proof.
  pose proof (load_failure_reported SampleConfig.disk "nowhere.yaml") as H.
  destruct (Loader.load_config SampleConfig.disk "nowhere.yaml")
    as [log [cfg|e]] eqn:E.
  - discriminate E.
  - destruct H as (m & -> & Hm & _ & He & _).
    assert (e = Loader.FileNotFoundError) as -> by (apply He; reflexivity).
    assert (m = Loader.NotFoundMessage) as -> by (apply Hm; reflexivity).
    reflexivity.
Defined.

(** A file that is one string naming the four keys passes the membership
    tests and fails at [setdefault]; an empty file fails at the first
    test. *)
Lemma non_mapping_never_loads_witness :
  snd (Loader.load_config SampleConfig.disk "words.yaml")
  = Loader.Failed Loader.AttributeError
  /\ snd (Loader.load_config SampleConfig.disk "empty.yaml")
     = Loader.Failed Loader.TypeError.
Proof.
  split.
  - destruct (non_mapping_never_loads SampleConfig.disk "words.yaml"
                (Loader.VStr "dbPath baseUrl startPage endPage") eq_refl)
      as (e & Hload & _).
    rewrite Hload. simpl. vm_compute in Hload. now inversion Hload.
  - destruct (non_mapping_never_loads SampleConfig.disk "empty.yaml"
                Loader.VNone eq_refl) as (e & Hload & ->).
    now rewrite Hload.
Defined.

(* ===================================================================== *)
(** ** Further properties: the selectors                                  *)
(* ===================================================================== *)

Lemma space_free_app_space (a b : string) :
  PyStr.space_free (a +:+ String " " b) = false.
Proof.
  unfold PyStr.space_free.
  induction a as [|c a IH]; [reflexivity|].
  rewrite append_cons. simpl. rewrite IH. apply andb_false_r.
Qed.

Lemma split_at_space (a : string) :
  forall b c d : string,
    PyStr.space_free a = true -> PyStr.space_free c = true ->
    a +:+ String " " b = c +:+ String " " d -> a = c /\ b = d.
Proof.
  unfold PyStr.space_free.
  induction a as [|x a IH]; intros b c d Ha Hc Heq.
  - destruct c as [|y c]; rewrite ?append_nil_l, ?append_cons in Heq.
    + inversion Heq. done.
    + inversion Heq; subst. simpl in Hc. discriminate.
  - destruct c as [|y c]; rewrite ?append_nil_l, ?append_cons in Heq.
    + inversion Heq; subst. simpl in Ha. discriminate.
    + inversion Heq; subst. simpl in Ha, Hc.
      apply andb_true_iff in Ha as [_ Ha]. apply andb_true_iff in Hc as [_ Hc].
      destruct (IH b c d Ha Hc) as [-> ->]; done.
Qed.

Lemma join_classes_cons (c1 c2 : string) (rest : list string) :
  Soup.join_classes (c1 :: c2 :: rest)
  = c1 +:+ String " " (Soup.join_classes (c2 :: rest)).
Proof. reflexivity. Qed.

(** Joining space-free class names is one-to-one. *)
Lemma join_classes_inj (ws : list string) :
  forall cs : list string,
    ws <> [] ->
    List.Forall (fun w => PyStr.space_free w = true /\ w <> EmptyString) ws ->
    List.Forall (fun c => PyStr.space_free c = true) cs ->
    Soup.join_classes cs = Soup.join_classes ws -> cs = ws.
Proof.
  induction ws as [|w1 ws IH]; intros cs Hne Hws Hcs Heq; [done|].
  inversion Hws as [|? ? [Hw1 Hw1ne] Hws']; subst.
  destruct ws as [|w2 ws].
  - simpl in Heq. destruct cs as [|c1 [|c2 cs]].
    + simpl in Heq. congruence.
    + simpl in Heq. congruence.
    + rewrite join_classes_cons in Heq. rewrite <- Heq in Hw1.
      now rewrite space_free_app_space in Hw1.
  - rewrite join_classes_cons in Heq. destruct cs as [|c1 [|c2 cs]].
    + simpl in Heq. destruct w1; rewrite ?append_nil_l, ?append_cons in Heq;
        discriminate.
    + simpl in Heq. inversion Hcs as [|? ? Hc1 _]; subst.
      now rewrite space_free_app_space in Hc1.
    + rewrite join_classes_cons in Heq.
      inversion Hcs as [|? ? Hc1 Hcs']; subst.
      apply split_at_space in Heq as [-> Heq]; [|done..].
      f_equal. now apply IH.
Qed.

Lemma class_matches_words (ws cs : list string) :
  (2 <= length ws)%nat ->
  List.Forall (fun w => PyStr.space_free w = true /\ w <> EmptyString) ws ->
  List.Forall (fun c => PyStr.space_free c = true) cs ->
  Soup.class_matches (Soup.join_classes ws) cs = true <-> cs = ws.
Proof.
  intros Hlen Hws Hcs. unfold Soup.class_matches.
  assert (Hjoin : PyStr.space_free (Soup.join_classes ws) = false).
  { destruct ws as [|w1 [|w2 ws]]; simpl in Hlen; try lia.
    rewrite join_classes_cons. apply space_free_app_space. }
  rewrite orb_true_iff, String.eqb_eq. split.
  - intros [H|H].
    + apply existsb_exists in H as (c & Hc & Heq).
      apply String.eqb_eq in Heq. subst c.
      rewrite List.Forall_forall in Hcs. specialize (Hcs _ Hc). congruence.
    + apply join_classes_inj; auto. destruct ws; simpl in Hlen; [lia|done].
  - intros ->. now right.
Qed.

Lemma class_matches_word (w : string) (cs : list string) :
  PyStr.space_free w = true -> w <> EmptyString ->
  Soup.class_matches w cs = true <-> In w cs.
Proof.
  intros Hw Hne. unfold Soup.class_matches.
  rewrite orb_true_iff, String.eqb_eq, existsb_exists. split.
  - intros [(c & Hc & Heq)|H].
    + apply String.eqb_eq in Heq. now subst.
    + destruct cs as [|c1 [|c2 cs]]; simpl in H.
      * congruence.
      * subst. now left.
      * rewrite <- H in Hw. change (c1 +:+ " " +:+ _)
          with (c1 +:+ String " " (Soup.join_classes (c2 :: cs))) in Hw.
        now rewrite space_free_app_space in Hw.
  - intros Hin. left. exists w. split; [done|]. apply String.eqb_refl.
Qed.

(** X19.  What the four class selectors of [crawl_page] accept, on
    elements whose class names hold no space.  The container is a [div]
    whose class list is exactly [col-sm-9], [col-xs-12], [xs-padding] in
    this order, and the heading an [h5] whose class list is exactly
    [xs-padding], [xs-font-size]: one class more, one less or another
    order is not accepted.  The visible time is a [p] that has the class
    [visible-xs], and the hidden box a [div] that has the class
    [pp-box-time], among any others. *)
Theorem selectors_exact (name : string) (classes : list string)
    (href : option string) (inner : list Soup.node) :
  List.Forall (fun c => PyStr.space_free c = true) classes ->
  (Soup.is_tag "div" (Some Extractor.container_class)
     (Soup.Elem name classes href inner) = true
   <-> name = "div" /\ classes = ["col-sm-9"; "col-xs-12"; "xs-padding"])
  /\ (Soup.is_tag "h5" (Some Extractor.heading_class)
        (Soup.Elem name classes href inner) = true
      <-> name = "h5" /\ classes = ["xs-padding"; "xs-font-size"])
  /\ (Soup.is_tag "p" (Some Extractor.visible_time_class)
        (Soup.Elem name classes href inner) = true
      <-> name = "p" /\ In "visible-xs" classes)
  /\ (Soup.is_tag "div" (Some Extractor.hidden_time_class)
        (Soup.Elem name classes href inner) = true
      <-> name = "div" /\ In "pp-box-time" classes).
Proof.
  intros Hcs. unfold Soup.is_tag.
  rewrite !andb_true_iff, !String.eqb_eq.
  split; [|split; [|split]].
  - change Extractor.container_class
      with (Soup.join_classes ["col-sm-9"; "col-xs-12"; "xs-padding"]).
    rewrite class_matches_words; [done|simpl; lia| |done].
    repeat constructor; done.
  - change Extractor.heading_class
      with (Soup.join_classes ["xs-padding"; "xs-font-size"]).
    rewrite class_matches_words; [done|simpl; lia| |done].
    repeat constructor; done.
  - unfold Extractor.visible_time_class.
    now rewrite class_matches_word.
  - unfold Extractor.hidden_time_class.
    now rewrite class_matches_word.
Qed.

(** The reordered sample container is not taken for the container. *)
Lemma selectors_exact_witness :
  Soup.is_tag "div" (Some Extractor.container_class)
    Sample.reordered_container = false
  /\ Extractor.extract
       (Soup.Elem "[document]" [] None [Sample.reordered_container]) = [].
Proof.
  split; [|reflexivity].
  destruct (selectors_exact "div" ["xs-padding"; "col-sm-9"; "col-xs-12"]
              None [Sample.link_full]) as [H _].
  { repeat constructor. }
  destruct (Soup.is_tag "div" (Some Extractor.container_class)
              Sample.reordered_container) eqn:E; [|reflexivity].
  apply H in E as [_ E]. discriminate E.
Defined.

(* ===================================================================== *)
(** ** Further properties: the stored count                               *)
(* ===================================================================== *)

Section CountProperties.

Variable str_format : string -> Z -> result string.
Variable http_get : Z -> string -> response.

Lemma run_dom_union (cfg : config) (sched : list nat)
    (t : gmap string Store.row) :
  dom (table (coordinator str_format http_get cfg sched t))
  = dom t ∪ list_to_set (all_urls str_format http_get cfg).
Proof.
  apply set_eq. intros u.
  rewrite elem_of_union, elem_of_list_to_set, !elem_of_dom, list_elem_of_In.
  unfold coordinator. rewrite run_dom. simpl. unfold all_urls.
  split; (intros [H|H]; [now left|right]);
    (eapply Permutation_in; [|exact H]); apply urls_of_perm;
    [|symmetry]; apply as_completed_perm.
Qed.

(** X20.  The count of stored URLs a run prints is the count the table
    had before the run plus the number of distinct extracted URLs that
    were not yet in the table. *)
Theorem stored_count_formula (cfg : config) (sched : list nat)
    (db : option (gmap string Store.row)) :
  0 < maxWorkers cfg ->
  exists s,
    printed (main str_format http_get cfg sched db) = Ok s
    /\ total_in_db s
       = Store.count (Store.ensure_schema db)
         + Z.of_nat
             (size (list_to_set (all_urls str_format http_get cfg)
                    ∖ dom (Store.ensure_schema db) : gset string)).
Proof.
  intros Hw. rewrite main_completes by done. simpl.
  eexists. split; [reflexivity|]. simpl. unfold Store.count.
  rewrite <- (size_dom (table _)), run_dom_union, size_union_alt, size_dom.
  lia.
Qed.

End CountProperties.

(** The sample run on the sample table: one row before, two distinct
    URLs extracted, one of them new, two rows after. *)
Lemma stored_count_formula_witness :
  0 < maxWorkers Sample.cfg_1_3
  /\ exists s,
       printed (main Sample.simple_format Sample.net_1_3 Sample.cfg_1_3
                     [2; 0]%nat (Some Sample.table_one)) = Ok s
       /\ total_in_db s = 1 + 1.
Proof.
  split; [reflexivity|].
  destruct (stored_count_formula Sample.simple_format Sample.net_1_3
              Sample.cfg_1_3 [2; 0]%nat (Some Sample.table_one) eq_refl)
    as (s & Hs & Hn).
  exists s. split; [exact Hs|].
  rewrite Hn. vm_compute. reflexivity.
Defined.
